(** * wyoming_supertonic: the streaming synthesis session handler

    A shallow embedding of [wyoming_supertonic/handler.py] and of the parts of
    [wyoming_supertonic/supertonic_engine.py] and [wyoming_supertonic/__main__.py]
    the handler depends on.

    Modelling conventions.
    - A Python [str] is a [string]; the text is taken to be ASCII, so that
      [len] is [String.length], [str.lower] folds [A-Z] and [str.strip] removes
      the ASCII white space characters.
    - A Python [bytes] value is a [list byte].
    - The handler object is a record [Handler] threaded through a small
      state-and-exception monad [M]; what the handler does to the outside
      world (events written to the client, calls into the engine) is logged
      as a list of [Action]s.
    - [write_event] always succeeds: transport faults are outside the model.
    - The sentence boundary detector (package [sentence_stream]) and the
      inference helper (module [helper]) are external; the first is an
      interface ([SentenceBoundaryDetector]), the second a field of the engine. *)

From Stdlib Require Import String Ascii List ZArith Lia Bool Arith PeanoNat.
From Stdlib Require Import Init.Byte.
Import ListNotations.
Local Open Scope string_scope.
Local Open Scope list_scope.

(** ** Python string operations *)

Module PyStr.

(** [bool(s)] for a [str]: the empty string is falsy. *)
Definition truthy (s : string) : bool :=
  match s with
  | EmptyString => false
  | String _ _ => true
  end.

(** [bool(x)] for an optional [str] ([None] or a string). *)
Definition truthy_opt (o : option string) : bool :=
  match o with
  | None => false
  | Some s => truthy s
  end.

Definition is_upper (c : ascii) : bool :=
  let n := nat_of_ascii c in ((65 <=? n) && (n <=? 90))%nat.

Definition lower_char (c : ascii) : ascii :=
  if is_upper c then ascii_of_nat (nat_of_ascii c + 32) else c.

(** [s.lower()] *)
Fixpoint lower (s : string) : string :=
  match s with
  | EmptyString => EmptyString
  | String c r => String (lower_char c) (lower r)
  end.

(** [s[:n]] *)
Fixpoint prefix (n : nat) (s : string) : string :=
  match n, s with
  | S k, String c r => String c (prefix k r)
  | _, _ => EmptyString
  end.

(** [c.isspace()] on ASCII: tab, line feed, vertical tab, form feed,
    carriage return, the four separators 0x1c-0x1f and the space. *)
Definition is_space (c : ascii) : bool :=
  let n := nat_of_ascii c in
  (((9 <=? n) && (n <=? 13)) || ((28 <=? n) && (n <=? 32)))%nat.

(** [s.lstrip()] *)
Fixpoint lstrip (s : string) : string :=
  match s with
  | EmptyString => EmptyString
  | String c r => if is_space c then lstrip r else s
  end.

(** [s.rstrip()] *)
Fixpoint rstrip (s : string) : string :=
  match s with
  | EmptyString => EmptyString
  | String c r =>
      match rstrip r with
      | EmptyString => if is_space c then EmptyString else String c EmptyString
      | r' => String c r'
      end
  end.

(** [s.strip()] *)
Definition strip (s : string) : string := rstrip (lstrip s).

(** [x in l] for a list of strings. *)
Fixpoint mem (x : string) (l : list string) : bool :=
  match l with
  | [] => false
  | y :: r => (x =? y)%string || mem x r
  end.

(** [all(c.isspace() for c in s)]: what [strip] reduces to nothing. *)
Fixpoint blank (s : string) : bool :=
  match s with
  | EmptyString => true
  | String c r => is_space c && blank r
  end.

(** [s[:1].isspace()] and [s[-1:].isspace()] *)
Definition head_is_space (s : string) : bool :=
  match s with
  | EmptyString => false
  | String c _ => is_space c
  end.

Fixpoint last_is_space (s : string) : bool :=
  match s with
  | EmptyString => false
  | String c EmptyString => is_space c
  | String _ r => last_is_space r
  end.

End PyStr.

(** ** Python [range] and slicing on [bytes] *)

Module PyBytes.

(** [list(range(0, stop, step))] for [step > 0]: the multiples of [step]
    below [stop]; there are [ceil(stop / step)] of them. *)
Definition range0 (stop step : nat) : list nat :=
  map (fun k => k * step) (seq 0 ((stop + step - 1) / step)).

(** [b[i:j]] for [0 <= i <= j]: out-of-range bounds are clipped. *)
Definition slice (b : list byte) (i j : nat) : list byte :=
  firstn (j - i) (skipn i b).

End PyBytes.

(** ** Configuration: [__main__.py]

    The two command line settings the handler reads from [cli_args]. The
    parser defines no setting for a voice. *)

Record CliArgs := {
  language : string;        (* --language, default "en" *)
  no_streaming : bool       (* --no-streaming *)
}.

Definition default_cli_args : CliArgs :=
  {| language := "en"; no_streaming := false |}.

(** ** The engine: [supertonic_engine.py] *)

(** [tts] is [None] until [load] has run. Once loaded it stands for the
    helper's pipeline: style loading from the style file, inference with the
    engine's [steps] and [speed], and the conversion of the samples to 16-bit
    PCM. Its arguments are the text, the language and the path of the style
    file; [None] as a result stands for an exception. [styles_dir] is [None]
    when [load] found no style folder, in which case joining the path raises. *)
Record SupertonicEngine := {
  tts : option (string -> string -> string -> option (list byte));
  sample_rate : Z;
  available_voices : list string;
  styles_dir : option string
}.

(** [self.supported_langs] *)
Definition supported_langs : list string := ["en"; "ko"; "es"; "pt"; "fr"].

(** Lines 73-76 of [synthesize]: the language handed to the model. *)
Definition short_lang (lang_code : string) : string :=
  let lang_code := if PyStr.truthy lang_code then lang_code else "en" in
  let short := PyStr.lower (PyStr.prefix 2 lang_code) in
  if PyStr.mem short supported_langs then short else "en".

(** [os.path.join(styles_dir, f"{voice_name}.json")] for a directory
    and a file name without separators. *)
Definition style_path (dir voice_name : string) : string :=
  (dir ++ "/" ++ voice_name ++ ".json")%string.

(** [SupertonicEngine.synthesize]; [None] stands for a raised exception. *)
Definition synthesize (engine : SupertonicEngine)
    (text voice_name lang_code : string) : option (list byte * Z) :=
  match tts engine with
  | None => None
  | Some model =>
      let short := short_lang lang_code in
      match styles_dir engine with
      | None => None
      | Some dir =>
          match model text short (style_path dir voice_name) with
          | None => None
          | Some pcm => Some (pcm, sample_rate engine)
          end
      end
  end.

(** ** Events: the [wyoming] protocol as the handler sees it *)

(** The [voice] mapping of an event's data. *)
Record VoiceData := {
  v_name : option string;
  v_language : option string
}.

(** Inbound events. A [text] of [None] is a payload without the ["text"] key,
    for which [from_event] raises [KeyError]. Payloads are taken to be well
    typed otherwise: a text that is present is a string, and a voice that is
    present is a mapping whose name and language are absent or strings. A
    null voice, a voice that is no mapping and a text that is no string have
    no value here. *)
Inductive Event :=
| Describe
| Synthesize (text : option string) (voice : option VoiceData)
| SynthesizeStart (voice : option VoiceData)
| SynthesizeChunk (text : option string)
| SynthesizeStop
| OtherEvent (type : string).

(** Outbound events. [Info] stands for [self.wyoming_info_event], which is
    computed once when the handler is built. *)
Inductive OutEvent :=
| Info
| AudioStart (rate width channels : Z)
| AudioChunk (audio : list byte) (rate width channels : Z)
| AudioStop
| SynthesizeStopped
| Error (text code : string).

(** A raised exception: [str(err)] and [err.__class__.__name__]. *)
Record Exn := {
  exn_text : string;
  exn_code : string
}.

Definition KeyError (key : string) : Exn :=
  {| exn_text := ("'" ++ key ++ "'")%string; exn_code := "KeyError" |}.

(** What the handler does to the outside world, in order: an event written to
    the client, or a call of [engine.synthesize] with its outcome. *)
Inductive Action :=
| Write (event : OutEvent)
| Engine (text voice_name lang_code : string) (result : option (list byte * Z)).

(** ** The sentence boundary detector (package [sentence_stream]) *)

Class SentenceBoundaryDetector (D : Type) := {
  sbd_new : D;
  add_chunk : D -> string -> list string * D;
  finish : D -> string * D
}.

(** ** The handler object *)

Record Handler (D : Type) := {
  cli_args : CliArgs;
  engine : SupertonicEngine;
  sbd : D;
  _is_streaming : bool;
  _audio_started : bool;
  _sentence_buffer : string;
  _current_voice : option string;
  _current_language : string
}.

Arguments cli_args {D} _.
Arguments engine {D} _.
Arguments sbd {D} _.
Arguments _is_streaming {D} _.
Arguments _audio_started {D} _.
Arguments _sentence_buffer {D} _.
Arguments _current_voice {D} _.
Arguments _current_language {D} _.

Section Assignments.
Context {D : Type}.

Definition set_sbd (d : D) (h : Handler D) : Handler D :=
  {| cli_args := cli_args h; engine := engine h; sbd := d;
     _is_streaming := _is_streaming h; _audio_started := _audio_started h;
     _sentence_buffer := _sentence_buffer h;
     _current_voice := _current_voice h;
     _current_language := _current_language h |}.

Definition set_is_streaming (b : bool) (h : Handler D) : Handler D :=
  {| cli_args := cli_args h; engine := engine h; sbd := sbd h;
     _is_streaming := b; _audio_started := _audio_started h;
     _sentence_buffer := _sentence_buffer h;
     _current_voice := _current_voice h;
     _current_language := _current_language h |}.

Definition set_audio_started (b : bool) (h : Handler D) : Handler D :=
  {| cli_args := cli_args h; engine := engine h; sbd := sbd h;
     _is_streaming := _is_streaming h; _audio_started := b;
     _sentence_buffer := _sentence_buffer h;
     _current_voice := _current_voice h;
     _current_language := _current_language h |}.

Definition set_sentence_buffer (s : string) (h : Handler D) : Handler D :=
  {| cli_args := cli_args h; engine := engine h; sbd := sbd h;
     _is_streaming := _is_streaming h; _audio_started := _audio_started h;
     _sentence_buffer := s;
     _current_voice := _current_voice h;
     _current_language := _current_language h |}.

Definition set_current_voice (v : option string) (h : Handler D) : Handler D :=
  {| cli_args := cli_args h; engine := engine h; sbd := sbd h;
     _is_streaming := _is_streaming h; _audio_started := _audio_started h;
     _sentence_buffer := _sentence_buffer h;
     _current_voice := v;
     _current_language := _current_language h |}.

Definition set_current_language (l : string) (h : Handler D) : Handler D :=
  {| cli_args := cli_args h; engine := engine h; sbd := sbd h;
     _is_streaming := _is_streaming h; _audio_started := _audio_started h;
     _sentence_buffer := _sentence_buffer h;
     _current_voice := _current_voice h;
     _current_language := l |}.

End Assignments.

(** ** The monad of handler methods: state, exceptions and a log *)

Inductive Outcome (A : Type) :=
| Returned (a : A)
| Raised (e : Exn).

Arguments Returned {A} a.
Arguments Raised {A} e.

Definition M (D A : Type) : Type :=
  Handler D -> Outcome A * Handler D * list Action.

Section Monad.
Context {D : Type}.

Definition ret {A} (a : A) : M D A := fun h => (Returned a, h, []).

Definition bind {A B} (m : M D A) (k : A -> M D B) : M D B :=
  fun h =>
    match m h with
    | (Returned a, h1, t1) =>
        match k a h1 with
        | (r, h2, t2) => (r, h2, t1 ++ t2)
        end
    | (Raised e, h1, t1) => (Raised e, h1, t1)
    end.

Definition raise {A} (e : Exn) : M D A := fun h => (Raised e, h, []).

(** [try: m except Exception as err: k err] *)
Definition try_except {A} (m : M D A) (k : Exn -> M D A) : M D A :=
  fun h =>
    match m h with
    | (Returned a, h1, t1) => (Returned a, h1, t1)
    | (Raised e, h1, t1) =>
        match k e h1 with
        | (r, h2, t2) => (r, h2, t1 ++ t2)
        end
    end.

(** Reading [self]. *)
Definition self : M D (Handler D) := fun h => (Returned h, h, []).

(** An assignment to a field of [self]. *)
Definition assign (f : Handler D -> Handler D) : M D unit :=
  fun h => (Returned tt, f h, []).

(** [await self.write_event(e)] *)
Definition write_event (e : OutEvent) : M D unit :=
  fun h => (Returned tt, h, [Write e]).

(** [await loop.run_in_executor(None, self.engine.synthesize, text, voice, lang)]
    inside its [try]: the call is logged, an exception becomes [None]. *)
Definition run_in_executor (text voice_name lang_code : string)
  : M D (option (list byte * Z)) :=
  fun h =>
    let r := synthesize (engine h) text voice_name lang_code in
    (Returned r, h, [Engine text voice_name lang_code r]).

End Monad.

Notation "x <- m ;; k" := (bind m (fun x => k))
  (at level 61, m at next level, right associativity).
Notation "m ;; k" := (bind m (fun _ => k))
  (at level 61, right associativity).

Section ForEach.
Context {D A : Type}.

(** [for x in l: await body(x)] *)
Fixpoint for_each (l : list A) (body : A -> M D unit) : M D unit :=
  match l with
  | [] => ret tt
  | x :: r => body x ;; for_each r body
  end.

End ForEach.

(** ** The handler's methods: [handler.py] *)

Section HandlerMethods.
Context {D : Type} `{SentenceBoundaryDetector D}.

(** [SupertonicEventHandler.__init__] *)
Definition new_handler (args : CliArgs) (eng : SupertonicEngine) : Handler D :=
  {| cli_args := args; engine := eng; sbd := sbd_new;
     _is_streaming := false; _audio_started := false;
     _sentence_buffer := ""; _current_voice := None;
     _current_language := language args |}.

(** Lines 197-201 of [_flush_buffer]: the voice handed to the engine. *)
Definition voice_name (h : Handler D) : string :=
  let catalog := available_voices (engine h) in
  let otherwise :=
    match catalog with
    | first :: _ => first
    | [] => "M1"
    end in
  match _current_voice h with
  | Some v => if PyStr.truthy v && PyStr.mem v catalog then v else otherwise
  | None => otherwise
  end.

Definition chunk_size : nat := 2048.

(** [pcm_bytes[i : i + chunk_size]] for [i] in
    [range(0, len(pcm_bytes), chunk_size)], lines 218-221. *)
Definition pcm_slices (pcm_bytes : list byte) : list (list byte) :=
  map (fun i => PyBytes.slice pcm_bytes i (i + chunk_size))
      (PyBytes.range0 (length pcm_bytes) chunk_size).

(** The [AudioChunk] events of one synthesis result, lines 219-222. *)
Definition audio_chunks (pcm_bytes : list byte) (rate : Z) : list OutEvent :=
  map (fun audio => AudioChunk audio rate 2 1) (pcm_slices pcm_bytes).

(** [SupertonicEventHandler._flush_buffer] *)
Definition _flush_buffer : M D unit :=
  h <- self ;;
  let text := PyStr.strip (_sentence_buffer h) in
  assign (set_sentence_buffer "") ;;
  if negb (PyStr.truthy text) then ret tt else
  let voice := voice_name h in
  result <- run_in_executor text voice (_current_language h) ;;
  match result with
  | None => ret tt
  | Some (pcm_bytes, rate) =>
      h <- self ;;
      (if negb (_audio_started h)
       then write_event (AudioStart rate 2 1) ;; assign (set_audio_started true)
       else ret tt) ;;
      for_each (audio_chunks pcm_bytes rate) write_event
  end.

(** [SupertonicEventHandler._process_sentence] *)
Definition _process_sentence (sentence : string) : M D unit :=
  let s := PyStr.strip sentence in
  if negb (PyStr.truthy s) then ret tt else
  h <- self ;;
  (if PyStr.truthy (_sentence_buffer h)
   then assign (set_sentence_buffer (_sentence_buffer h ++ " " ++ s)%string)
   else assign (set_sentence_buffer s)) ;;
  h <- self ;;
  if (20 <=? String.length (_sentence_buffer h))%nat
  then _flush_buffer
  else ret tt.

(** [SupertonicEventHandler._handle_synthesize_full] *)
Definition _handle_synthesize_full (text : string) : M D bool :=
  assign (set_audio_started false) ;;
  assign (set_sentence_buffer "") ;;
  assign (set_sbd sbd_new) ;;
  h <- self ;;
  let '(sentences, d) := add_chunk (sbd h) text in
  let '(remaining, d) := finish d in
  assign (set_sbd d) ;;
  let sentences :=
    if PyStr.truthy remaining then sentences ++ [remaining] else sentences in
  for_each sentences _process_sentence ;;
  _flush_buffer ;;
  h <- self ;;
  (if _audio_started h then write_event AudioStop else ret tt) ;;
  ret true.

(** [Synthesize.from_event] and [SynthesizeChunk.from_event]: the text. *)
Definition text_from_event (text : option string) : M D string :=
  match text with
  | Some t => ret t
  | None => raise (KeyError "text")
  end.

(** The voice and language recorded from a [Synthesize] or
    [SynthesizeStart] event, lines 103-108 and 117-129. *)
Definition record_voice (voice : option VoiceData) : M D unit :=
  let lang :=
    match voice with
    | Some v => v_language v
    | None => None
    end in
  let name :=
    match voice with
    | Some v => v_name v
    | None => None
    end in
  (if PyStr.truthy_opt name then assign (set_current_voice name) else ret tt) ;;
  match lang with
  | Some l => if PyStr.truthy l then assign (set_current_language l) else ret tt
  | None => ret tt
  end.

(** The body of the [try] statement of [handle_event]. [None] is the fall
    through to the final [return True]. *)
Definition handle_event_try (event : Event) : M D (option bool) :=
  match event with
  | Synthesize text voice =>
      h <- self ;;
      if _is_streaming h then ret (Some true) else
      text <- text_from_event text ;;
      record_voice voice ;;
      r <- _handle_synthesize_full text ;;
      ret (Some r)
  | SynthesizeStart voice =>
      h <- self ;;
      if no_streaming (cli_args h) then ret (Some true) else
      assign (set_is_streaming true) ;;
      assign (set_audio_started false) ;;
      assign (set_sbd sbd_new) ;;
      assign (set_sentence_buffer "") ;;
      record_voice voice ;;
      ret (Some true)
  | SynthesizeChunk text =>
      h <- self ;;
      if negb (_is_streaming h) then ret (Some true) else
      text <- text_from_event text ;;
      h <- self ;;
      let '(sentences, d) := add_chunk (sbd h) text in
      assign (set_sbd d) ;;
      for_each sentences _process_sentence ;;
      ret (Some true)
  | SynthesizeStop =>
      h <- self ;;
      if negb (_is_streaming h) then ret (Some true) else
      let '(remaining, d) := finish (sbd h) in
      assign (set_sbd d) ;;
      (if PyStr.truthy remaining then _process_sentence remaining else ret tt) ;;
      _flush_buffer ;;
      h <- self ;;
      (if _audio_started h then write_event AudioStop else ret tt) ;;
      write_event SynthesizeStopped ;;
      assign (set_is_streaming false) ;;
      ret (Some true)
  | Describe | OtherEvent _ => ret None
  end.

(** [SupertonicEventHandler.handle_event] *)
Definition handle_event (event : Event) : M D bool :=
  match event with
  | Describe => write_event Info ;; ret true
  | _ =>
      r <- try_except (handle_event_try event)
             (fun err =>
                write_event (Error (exn_text err) (exn_code err)) ;;
                assign (set_is_streaming false) ;;
                ret None) ;;
      match r with
      | Some b => ret b
      | None => ret true
      end
  end.

(** The loop of [run_raw] over the events read from the connection: it
    stops when [handle_event] returns [False] or raises. *)
Fixpoint run_raw (events : list Event) (h : Handler D)
  : Handler D * list Action :=
  match events with
  | [] => (h, [])
  | event :: rest =>
      match handle_event event h with
      | (Returned true, h1, t1) =>
          let '(h2, t2) := run_raw rest h1 in (h2, t1 ++ t2)
      | (_, h1, t1) => (h1, t1)
      end
  end.

End HandlerMethods.

(** ** Reading a log of actions *)

Definition is_AudioStart (a : Action) : bool :=
  match a with
  | Write (AudioStart _ _ _) => true
  | _ => false
  end.

Definition is_AudioChunk (a : Action) : bool :=
  match a with
  | Write (AudioChunk _ _ _ _) => true
  | _ => false
  end.

Definition is_AudioStop (a : Action) : bool :=
  match a with
  | Write AudioStop => true
  | _ => false
  end.

Definition is_Write (a : Action) : bool :=
  match a with
  | Write _ => true
  | Engine _ _ _ _ => false
  end.

(** A call of the engine that returned audio. *)
Definition is_audio_result (a : Action) : bool :=
  match a with
  | Engine _ _ _ (Some _) => true
  | _ => false
  end.

Definition count (p : Action -> bool) (log : list Action) : nat :=
  length (filter p log).

(** Where an utterance stands with respect to its audio: nothing produced
    yet, a result just obtained from the engine and not yet announced, or
    [AudioStart] sent. *)
Inductive Phase := Silent | Produced | Started.

Definition phase_of (audio_started : bool) : Phase :=
  if audio_started then Started else Silent.

(** One action of a well-framed utterance: [AudioStart] directly follows the
    first result of the engine and nothing else, [AudioChunk] needs
    [AudioStart] before it. *)
Definition frame_step (p : Phase) (a : Action) : option Phase :=
  match p, a with
  | Silent, Engine _ _ _ None => Some Silent
  | Silent, Engine _ _ _ (Some _) => Some Produced
  | Silent, Write (AudioStart _ _ _) => None
  | Silent, Write (AudioChunk _ _ _ _) => None
  | Silent, Write _ => Some Silent
  | Produced, Write (AudioStart _ _ _) => Some Started
  | Produced, _ => None
  | Started, Write (AudioStart _ _ _) => None
  | Started, _ => Some Started
  end.

Fixpoint framed (p : Phase) (log : list Action) : option Phase :=
  match log with
  | [] => Some p
  | a :: rest =>
      match frame_step p a with
      | Some q => framed q rest
      | None => None
      end
  end.

(** The engine was handed a text that is empty or has white space at either
    end. *)
Definition untrimmed (text : string) : bool :=
  negb (PyStr.truthy text) || PyStr.head_is_space text || PyStr.last_is_space text.

Definition dispatches_untrimmed (a : Action) : bool :=
  match a with
  | Engine text _ _ _ => untrimmed text
  | Write _ => false
  end.

(** ** What sentence processing and flushing leave alone *)

(** The fields of the session that only the event dispatch may change. *)
Definition same_session {D} (h h' : Handler D) : Prop :=
  cli_args h' = cli_args h /\ engine h' = engine h /\
  _is_streaming h' = _is_streaming h /\
  _current_voice h' = _current_voice h /\
  _current_language h' = _current_language h.

(** A run that returns normally, keeps the session, frames its audio from
    the [_audio_started] flag it finds to the one it leaves, sends no
    [AudioStop] and hands the engine trimmed text only. *)
Definition steady {D} (h : Handler D)
    (run : Outcome unit * Handler D * list Action) : Prop :=
  exists h' log,
    run = (Returned tt, h', log) /\
    same_session h h' /\
    framed (phase_of (_audio_started h)) log = Some (phase_of (_audio_started h')) /\
    count is_AudioStop log = 0 /\
    existsb dispatches_untrimmed log = false.

(** The voice and the language of the session once an accepted [Synthesize]
    or [SynthesizeStart] event carrying [voice] has been recorded. *)
Definition voice_after (voice : option VoiceData) (current : option string)
  : option string :=
  match voice with
  | Some v => if PyStr.truthy_opt (v_name v) then v_name v else current
  | None => current
  end.

Definition language_after (voice : option VoiceData) (current : string)
  : string :=
  match voice with
  | Some v =>
      match v_language v with
      | Some l => if PyStr.truthy l then l else current
      | None => current
      end
  | None => current
  end.

Definition recorded {D} (voice : option VoiceData) (h : Handler D) : Handler D :=
  set_current_language (language_after voice (_current_language h))
    (set_current_voice (voice_after voice (_current_voice h)) h).

(** ** Utterances *)

(** Events that leave a streaming span open: [Describe], a one-shot
    [Synthesize] (ignored while streaming), a well-formed chunk, and events
    the handler does not know. *)
Definition mid_event (e : Event) : bool :=
  match e with
  | Describe | Synthesize _ _ | SynthesizeChunk (Some _) | OtherEvent _ => true
  | SynthesizeStart _ | SynthesizeChunk None | SynthesizeStop => false
  end.

(** An utterance that runs to its end: a one-shot request accepted while
    idle, or a streaming span from [SynthesizeStart] to [SynthesizeStop]. *)
Inductive completed_utterance {D} (h : Handler D) : list Event -> Prop :=
| one_shot_completed text voice :
    _is_streaming h = false ->
    completed_utterance h [Synthesize (Some text) voice]
| span_completed voice mids :
    no_streaming (cli_args h) = false ->
    forallb mid_event mids = true ->
    completed_utterance h (SynthesizeStart voice :: mids ++ [SynthesizeStop]).

(** How a streaming span can stand or end: still open (or about to be
    interrupted by the next [SynthesizeStart]), stopped, or failed on a
    chunk without text. *)
Inductive SpanEnd := StillOpen | Stopped | Faulted.

Definition closing (e : SpanEnd) : list Event :=
  match e with
  | StillOpen => []
  | Stopped => [SynthesizeStop]
  | Faulted => [SynthesizeChunk None]
  end.

(** The events of one utterance, whichever way it ends. *)
Inductive utterance {D} (h : Handler D) : list Event -> Prop :=
| one_shot text voice :
    _is_streaming h = false ->
    utterance h [Synthesize (Some text) voice]
| span voice mids e :
    no_streaming (cli_args h) = false ->
    forallb mid_event mids = true ->
    utterance h (SynthesizeStart voice :: mids ++ closing e).

(** An event that carries no voice name and no language. *)
Definition no_override (e : Event) : bool :=
  match e with
  | Synthesize _ (Some v) | SynthesizeStart (Some v) =>
      negb (PyStr.truthy_opt (v_name v)) && negb (PyStr.truthy_opt (v_language v))
  | _ => true
  end.

(** ** The claims of the specification that the code does not follow,
       as the specification words them *)

(** Voice resolution in the specification's words: the requested voice if it
    is in the catalog, else the explicitly configured default voice, else the
    first catalog entry. *)
Definition spec_voice_id (requested configured_default : option string)
    (catalog : list string) : option string :=
  match requested with
  | Some v => if PyStr.mem v catalog then Some v else
      match configured_default with
      | Some d => Some d
      | None => hd_error catalog
      end
  | None =>
      match configured_default with
      | Some d => Some d
      | None => hd_error catalog
      end
  end.

(** Language normalisation in the specification's words: the first two
    characters lower-cased, or the configured default language when that is
    not a supported language. *)
Definition spec_language (configured_default lang_code : string) : string :=
  let short := PyStr.lower (PyStr.prefix 2 lang_code) in
  if PyStr.mem short supported_langs then short else configured_default.

(** ** A concrete detector and engine, to run the handler on *)

Module Demo.

Definition ends_sentence (c : ascii) : bool :=
  (c =? ".")%char || (c =? "!")%char || (c =? "?")%char.

(** What has to follow the punctuation for a sentence to end there: white
    space, at least one character of it, and then an upper-case letter. *)
Fixpoint starts_sentence (seen_space : bool) (s : string) : bool :=
  match s with
  | EmptyString => false
  | String c r =>
      if PyStr.is_space c then starts_sentence true r
      else seen_space && PyStr.is_upper c
  end.

(** The boundary rule of the package on plain prose: a sentence ends after
    a [.], [!] or [?] that is followed by white space and an upper-case
    letter; it is released stripped, and the text after it is kept. The
    package's treatment of abbreviations, numbered lists and asterisks is
    left out, and the runs below have none of them. *)
Fixpoint split (pending s : string) : list string * string :=
  match s with
  | EmptyString => ([], pending)
  | String c r =>
      let current := (pending ++ String c EmptyString)%string in
      if ends_sentence c && starts_sentence false r
      then let '(l, p) := split EmptyString r in (PyStr.strip current :: l, p)
      else split current r
  end.

(** The state is the text not yet released; [add_chunk] appends the chunk
    to it and looks for boundaries in the whole of it, [finish] returns it
    stripped and starts afresh. *)
#[global] Instance detector : SentenceBoundaryDetector string := {
  sbd_new := "";
  add_chunk d s := split EmptyString (d ++ s)%string;
  finish d := (PyStr.strip d, "")
}.

(** Fails on the text ["Boom."]; otherwise 300 bytes a character. *)
Definition model (text lang path : string) : option (list byte) :=
  if (text =? "Boom.")%string then None
  else Some (repeat x01 (300 * String.length text)).

Definition engine : SupertonicEngine :=
  {| tts := Some model; sample_rate := 44100;
     available_voices := ["F1"; "M1"]; styles_dir := Some "voice_styles" |}.

(** Answers with the bytes of the language it is called with. *)
Definition echo_model (text lang path : string) : option (list byte) :=
  Some (list_byte_of_string lang).

Definition echo_engine : SupertonicEngine :=
  {| tts := Some echo_model; sample_rate := 44100;
     available_voices := ["F1"; "M1"]; styles_dir := Some "voice_styles" |}.

(** A handler as a new connection gets it, and one in the middle of a
    stream. *)
Definition handler : Handler string := new_handler default_cli_args engine.

Definition streaming_handler : Handler string := set_is_streaming true handler.

(** Handlers about to flush: with a voice of the catalog, with a voice that
    is not in it, and with a text the engine fails on. *)
Definition greeting : Handler string :=
  set_sentence_buffer "Hello." (set_current_voice (Some "M1") handler).

Definition unknown_voice : Handler string :=
  set_sentence_buffer "Hello." (set_current_voice (Some "zz") handler).

Definition failing : Handler string :=
  set_sentence_buffer "Boom." streaming_handler.

(** A server started with [--language ko]. *)
Definition korean_args : CliArgs := {| language := "ko"; no_streaming := false |}.

Definition korean_handler : Handler string := new_handler korean_args echo_engine.

(** Event sequences: a one-shot request, a stream of two chunks, and a
    stream that has produced audio. *)
Definition one_shot_request : list Event :=
  [Synthesize (Some "Hello world. How are you?") None].

Definition short_stream : list Event :=
  [SynthesizeStart None; SynthesizeChunk (Some "Hi ");
   SynthesizeChunk (Some "there."); SynthesizeStop].

Definition open_stream : list Event :=
  [SynthesizeStart None;
   SynthesizeChunk (Some "Good morning everyone, how are you today? I am fine.")].

(** Handlers about to take a sentence or to flush: a short buffer, a buffer
    one sentence away from the threshold, a buffer of white space only
    (tab, line feed, two spaces), and a buffer with white space around its
    text. *)
Definition short_buffer : Handler string :=
  set_sentence_buffer "Hi." handler.

Definition nearly_full : Handler string :=
  set_sentence_buffer "Hello world." handler.

Definition white_buffer : Handler string :=
  set_sentence_buffer (String "009" (String "010" "  ")) handler.

Definition padded_buffer : Handler string :=
  set_sentence_buffer (String "009" " Hi there.  ") handler.

End Demo.

(** ** More to read off logs and events *)

Definition is_Info (a : Action) : bool :=
  match a with
  | Write Info => true
  | _ => false
  end.

Definition is_Error (a : Action) : bool :=
  match a with
  | Write (Error _ _) => true
  | _ => false
  end.

Definition is_SynthesizeStopped (a : Action) : bool :=
  match a with
  | Write SynthesizeStopped => true
  | _ => false
  end.

(** The PCM bytes written to the client, in order. *)
Fixpoint audio_sent (log : list Action) : list byte :=
  match log with
  | [] => []
  | Write (AudioChunk audio _ _ _) :: rest => audio ++ audio_sent rest
  | _ :: rest => audio_sent rest
  end.

(** The PCM bytes the engine returned, in order. *)
Fixpoint audio_made (log : list Action) : list byte :=
  match log with
  | [] => []
  | Engine _ _ _ (Some (pcm_bytes, _)) :: rest => pcm_bytes ++ audio_made rest
  | _ :: rest => audio_made rest
  end.

(** The texts handed to the engine, in order. *)
Fixpoint dispatched (log : list Action) : list string :=
  match log with
  | [] => []
  | Engine text _ _ _ :: rest => text :: dispatched rest
  | Write _ :: rest => dispatched rest
  end.

(** [" ".join(w for w in l if w)] *)
Definition words_joined (l : list string) : string :=
  String.concat " " (filter PyStr.truthy l).

(** An audio event in the format [(rate, 2, 1)], a chunk of 1 to 2048
    bytes; any other action passes. *)
Definition well_formed_audio (rate : Z) (a : Action) : bool :=
  match a with
  | Write (AudioStart r w c) => (r =? rate)%Z && (w =? 2)%Z && (c =? 1)%Z
  | Write (AudioChunk audio r w c) =>
      (r =? rate)%Z && (w =? 2)%Z && (c =? 1)%Z
      && (1 <=? length audio)%nat && (length audio <=? 2048)%nat
  | _ => true
  end.

(** An engine call with a voice of the catalog; any other action passes. *)
Definition calls_catalog_voice (catalog : list string) (a : Action) : bool :=
  match a with
  | Engine _ voice _ _ => PyStr.mem voice catalog
  | Write _ => true
  end.

(** An event that carries the text its kind needs. *)
Definition has_text (e : Event) : bool :=
  match e with
  | Synthesize None _ | SynthesizeChunk None => false
  | _ => true
  end.

Definition is_Describe (e : Event) : bool :=
  match e with
  | Describe => true
  | _ => false
  end.

Definition is_SynthesizeStop (e : Event) : bool :=
  match e with
  | SynthesizeStop => true
  | _ => false
  end.

(** What [handle_event] may write for an event besides what its flushes
    write. *)
Definition tail_of (e : Event) (tail : list Action) : Prop :=
  match e with
  | Describe => tail = [Write Info]
  | Synthesize (Some _) _ => tail = [] \/ tail = [Write AudioStop]
  | Synthesize None _ | SynthesizeChunk None =>
      tail = [] \/
      tail = [Write (Error (exn_text (KeyError "text"))
                       (exn_code (KeyError "text")))]
  | SynthesizeStart _ | SynthesizeChunk (Some _) | OtherEvent _ => tail = []
  | SynthesizeStop =>
      tail = [] \/ tail = [Write SynthesizeStopped] \/
      tail = [Write AudioStop; Write SynthesizeStopped]
  end.

Section FlushLogs.
Context (D : Type) `{SentenceBoundaryDetector D}.

(** The logs of any number of flushes by handlers that share an engine. *)
Inductive flush_logs (eng : SupertonicEngine) : list Action -> Prop :=
| flush_logs_nil : flush_logs eng []
| flush_logs_cons (h : Handler D) (rest : list Action) :
    engine h = eng -> flush_logs eng rest ->
    flush_logs eng (snd (_flush_buffer h) ++ rest).

End FlushLogs.

(** ** The capability descriptor: [__main__.py] *)

Definition is_digit (c : ascii) : bool :=
  let n := nat_of_ascii c in ((48 <=? n) && (n <=? 57))%nat.

(** [s.isdigit()] on ASCII: every character a digit, and at least one. *)
Definition isdigit (s : string) : bool :=
  PyStr.truthy s &&
  (fix all_digits (s : string) : bool :=
     match s with
     | EmptyString => true
     | String c r => is_digit c && all_digits r
     end) s.

(** Lines 52-56 of [main]: the label of a voice. *)
Definition readable_name (voice_id : string) : string :=
  match voice_id with
  | String "M" rest =>
      if isdigit rest then ("Male " ++ rest)%string else voice_id
  | String "F" rest =>
      if isdigit rest then ("Female " ++ rest)%string else voice_id
  | _ => voice_id
  end.

Record TtsVoice := {
  tts_voice_name : string;
  tts_voice_description : string;
  tts_voice_languages : list string
}.

Record TtsProgram := {
  supports_synthesize_streaming : bool;
  voices : list TtsVoice
}.

(** Line 49 of [main], a list of its own beside the engine's. *)
Definition supported_languages : list string := ["en"; "ko"; "es"; "pt"; "fr"].

(** Lines 48-81 of [main]: the descriptor built from the loaded engine. *)
Definition wyoming_info (args : CliArgs) (eng : SupertonicEngine) : TtsProgram :=
  {| supports_synthesize_streaming := negb (no_streaming args);
     voices :=
       map (fun voice_id =>
              {| tts_voice_name := voice_id;
                 tts_voice_description := readable_name voice_id;
                 tts_voice_languages := supported_languages |})
           (available_voices eng) |}.

(** ** More concrete handlers and runs *)

Module Samples.

(** The engine as [load] leaves it when the styles folder is missing. *)
Definition unstyled_engine : SupertonicEngine :=
  {| tts := Some Demo.model; sample_rate := 44100;
     available_voices := ["M1"]; styles_dir := None |}.

Definition unstyled_handler : Handler string :=
  new_handler default_cli_args unstyled_engine.

(** A server started with [--no-streaming]. *)
Definition one_shot_args : CliArgs := {| language := "en"; no_streaming := true |}.

Definition one_shot_handler : Handler string :=
  new_handler one_shot_args Demo.engine.

(** A connection that mixes everything: a stream that produces audio and
    then fails on a chunk without text, a one-shot request the engine fails
    on, a stop outside a stream, and two [Describe]. *)
Definition mixed_session : list Event :=
  [Describe; SynthesizeStart None;
   SynthesizeChunk (Some "Good morning everyone, how are you today? I am fine.");
   SynthesizeChunk None; Synthesize (Some "Boom.") None;
   SynthesizeStop; Describe].

(** A handler with text left in its buffer and the audio flag set by an
    earlier request. *)
Definition used_handler : Handler string :=
  set_sbd "left over" (set_sentence_buffer "stale" (set_audio_started true Demo.handler)).

End Samples.

(** * Properties *)

(** ** Strings *)

Module PyStrFacts.
Import PyStr.

Lemma truthy_true (s : string) : truthy s = true <-> s <> "".
Proof. destruct s; simpl; split; congruence. Qed.

Lemma mem_In (x : string) (l : list string) : mem x l = true <-> In x l.
Proof.
  induction l as [|y r IH]; simpl.
  - split; [discriminate | tauto].
  - rewrite orb_true_iff, IH, String.eqb_eq. split; intros [E|E]; auto.
Qed.

Lemma mem_not_In (x : string) (l : list string) : mem x l = false <-> ~ In x l.
Proof.
  rewrite <- mem_In. destruct (mem x l); split; congruence.
Qed.

Lemma lstrip_leading (s : string) :
  exists lead, blank lead = true /\ s = (lead ++ lstrip s)%string /\
               head_is_space (lstrip s) = false.
Proof.
  induction s as [|c r (lead & B & E & Hd)]; simpl.
  - exists "". auto.
  - destruct (is_space c) eqn:Sp.
    + exists (String c lead). simpl. rewrite Sp, B, <- E. auto.
    + exists "". simpl. auto.
Qed.

Lemma rstrip_trailing (s : string) :
  exists trail, blank trail = true /\ s = (rstrip s ++ trail)%string /\
                last_is_space (rstrip s) = false.
Proof.
  induction s as [|c r (trail & B & E & La)]; simpl.
  - exists "". auto.
  - destruct (rstrip r) as [|c' r'] eqn:R.
    + simpl in E. subst trail.
      destruct (is_space c) eqn:Sp.
      * exists (String c r). simpl. rewrite Sp, B. auto.
      * exists r. simpl. auto.
    + exists trail. simpl in *. rewrite <- E. auto.
Qed.

Lemma rstrip_head (s : string) :
  head_is_space s = false -> head_is_space (rstrip s) = false.
Proof.
  destruct s as [|c r]; simpl; auto.
  intros Sp. destruct (rstrip r); simpl; rewrite ?Sp; auto.
Qed.

(** [strip] removes a blank prefix and a blank suffix, and what is left
    neither starts nor ends with white space. *)
Lemma strip_spec (s : string) :
  exists lead trail,
    blank lead = true /\ blank trail = true /\
    s = (lead ++ strip s ++ trail)%string /\
    head_is_space (strip s) = false /\ last_is_space (strip s) = false.
Proof.
  destruct (lstrip_leading s) as (lead & Bl & El & Hd).
  destruct (rstrip_trailing (lstrip s)) as (trail & Bt & Et & La).
  exists lead, trail. unfold strip. repeat split; auto.
  - rewrite <- Et. exact El.
  - apply rstrip_head, Hd.
Qed.

Lemma blank_app (a b : string) :
  blank (a ++ b) = blank a && blank b.
Proof.
  induction a as [|c r IH]; simpl; auto. rewrite IH, andb_assoc. reflexivity.
Qed.

Lemma lstrip_blank (s : string) : blank s = true -> lstrip s = "".
Proof.
  induction s as [|c r IH]; simpl; auto.
  intros B. apply andb_true_iff in B as [Sp B]. rewrite Sp. auto.
Qed.

(** A white-space-only string is exactly one that [strip] empties. *)
Lemma strip_blank (s : string) : blank s = true <-> strip s = "".
Proof.
  split.
  - intros B. unfold strip. rewrite (lstrip_blank s B). reflexivity.
  - intros E. destruct (strip_spec s) as (lead & trail & Bl & Bt & Es & _).
    rewrite E in Es. simpl in Es. rewrite Es, blank_app, Bl, Bt. reflexivity.
Qed.

Lemma strip_trimmed (s : string) :
  truthy (strip s) = true -> untrimmed (strip s) = false.
Proof.
  intros T. destruct (strip_spec s) as (_ & _ & _ & _ & _ & Hd & La).
  unfold untrimmed. rewrite T, Hd, La. reflexivity.
Qed.

End PyStrFacts.

(** ** Slicing a byte buffer *)

Module PyBytesFacts.
Import PyBytes.

Lemma slice_window (b : list byte) (i n : nat) :
  slice b i (i + n) = firstn n (skipn i b).
Proof. unfold slice. replace (i + n - i) with n by lia. reflexivity. Qed.

Lemma length_range0 (stop step : nat) :
  length (range0 stop step) = (stop + step - 1) / step.
Proof. unfold range0. rewrite length_map, length_seq. reflexivity. Qed.

Lemma nth_range0 (stop step k : nat) :
  k < length (range0 stop step) -> nth k (range0 stop step) 0 = k * step.
Proof.
  rewrite length_range0. intros Hk. unfold range0.
  rewrite (nth_indep _ 0 (0 * step))
    by (rewrite length_map, length_seq; exact Hk).
  rewrite (map_nth (fun j => j * step)), seq_nth by exact Hk. reflexivity.
Qed.

(** [range(0, stop, step)] reaches [stop]. *)
Lemma range0_covers (stop step : nat) :
  0 < step -> stop <= length (range0 stop step) * step.
Proof.
  intros Hs. rewrite length_range0.
  pose proof (Nat.div_mod_eq (stop + step - 1) step) as E.
  pose proof (Nat.mod_upper_bound (stop + step - 1) step ltac:(lia)) as U.
  nia.
Qed.

(** Every index of [range(0, stop, step)] is below [stop]. *)
Lemma range0_below (stop step k : nat) :
  0 < step -> k < length (range0 stop step) -> k * step < stop.
Proof.
  intros Hs. rewrite length_range0. intros Hk.
  pose proof (Nat.div_mod_eq (stop + step - 1) step) as E.
  pose proof (Nat.mod_upper_bound (stop + step - 1) step ltac:(lia)) as U.
  nia.
Qed.

Lemma windows_concat (n : nat) (Hn : 0 < n) :
  forall (m : nat) (b : list byte),
    length b <= m * n ->
    concat (map (fun i => slice b i (i + n))
                (map (fun k => k * n) (seq 0 m))) = b.
Proof.
  induction m as [|m IH]; intros b Hb.
  - destruct b; simpl in *; [reflexivity | lia].
  - rewrite <- cons_seq, <- seq_shift. cbn [map concat].
    rewrite slice_window. cbn [skipn Nat.mul].
    rewrite !map_map.
    rewrite (map_ext _ (fun k => slice (skipn n b) (k * n) (k * n + n))).
    + rewrite <- (map_map (fun k => k * n)
                          (fun i => slice (skipn n b) i (i + n))).
      rewrite IH by (rewrite length_skipn; lia).
      apply firstn_skipn.
    + intros k. rewrite !slice_window, skipn_skipn.
      f_equal. f_equal. simpl. lia.
Qed.

End PyBytesFacts.

(** ** Logs *)

Lemma count_app (p : Action -> bool) (l1 l2 : list Action) :
  count p (l1 ++ l2) = count p l1 + count p l2.
Proof. unfold count. rewrite filter_app, length_app. reflexivity. Qed.

Lemma framed_app (p : Phase) (l1 l2 : list Action) :
  framed p (l1 ++ l2) =
  match framed p l1 with
  | Some q => framed q l2
  | None => None
  end.
Proof.
  revert p. induction l1 as [|a r IH]; intros p; simpl; auto.
  destruct (frame_step p a); auto.
Qed.

Lemma framed_chunks (l : list OutEvent) :
  Forall (fun e => exists audio rate width channels,
              e = AudioChunk audio rate width channels) l ->
  framed Started (map Write l) = Some Started.
Proof.
  induction 1 as [|e r (audio & rate & width & channels & ->) _ IH]; simpl; auto.
Qed.

(** Each [AudioStart] of a framed log moves it to [Started], once. *)
Lemma framed_starts (log : list Action) :
  forall p q, framed p log = Some q ->
    count is_AudioStart log + (match p with Started => 1 | _ => 0 end)
    = (match q with Started => 1 | _ => 0 end).
Proof.
  induction log as [|a r IH]; intros p q F; simpl in F.
  - inversion F. reflexivity.
  - destruct (frame_step p a) as [p'|] eqn:St; [|discriminate].
    specialize (IH _ _ F). unfold count in *. simpl.
    destruct p, a as [[]|? ? ? []]; simpl in *; inversion St; subst; simpl in *; lia.
Qed.

Lemma framed_stays_silent (log : list Action) :
  forall p, framed p log = Some Silent ->
    p = Silent /\ existsb is_audio_result log = false.
Proof.
  induction log as [|a r IH]; intros p F; simpl in F.
  - inversion F. auto.
  - destruct (frame_step p a) as [p'|] eqn:St; [|discriminate].
    destruct (IH _ F) as [-> E]. simpl. rewrite E.
    destruct p, a as [[]|? ? ? []]; simpl in *; inversion St; auto.
Qed.

Lemma framed_leaves_silent (log : list Action) :
  forall q, framed Silent log = Some q -> q <> Silent ->
    existsb is_audio_result log = true.
Proof.
  induction log as [|a r IH]; intros q F N; cbn [framed] in F.
  - inversion F. congruence.
  - destruct (frame_step Silent a) as [p'|] eqn:St; [|discriminate].
    simpl. destruct a as [[]|? ? ? []]; simpl in *; inversion St; subst; eauto.
Qed.

Lemma frame_step_started (p : Phase) (a : Action) :
  frame_step p a = Some Started -> p = Started \/ is_AudioStart a = true.
Proof.
  destruct p, a as [[]|? ? ? []]; simpl; intros E; inversion E; auto.
Qed.

(** In a framed log an [AudioChunk] comes after [AudioStart]. *)
Lemma framed_chunk_after_start (l1 : list Action) :
  forall p a l2 q, framed p (l1 ++ a :: l2) = Some q ->
    is_AudioChunk a = true ->
    p = Started \/ existsb is_AudioStart l1 = true.
Proof.
  induction l1 as [|a0 r IH]; intros p a l2 q F C; simpl in F.
  - destruct (frame_step p a) eqn:St; [|discriminate].
    destruct p, a as [[]|? ? ? []]; simpl in *; try discriminate; auto.
  - destruct (frame_step p a0) as [p'|] eqn:St; [|discriminate].
    destruct (IH _ _ _ _ F C) as [-> | E].
    + destruct (frame_step_started _ _ St) as [-> | S0]; auto.
      right. simpl. rewrite S0. reflexivity.
    + right. simpl. rewrite E. apply orb_true_r.
Qed.

(** ** Sentence processing and flushing *)

Section HandlerFacts.
Context {D : Type} `{SentenceBoundaryDetector D}.
Implicit Types h : Handler D.

Lemma for_each_write (l : list OutEvent) h :
  for_each l write_event h = (Returned tt, h, map Write l).
Proof.
  induction l as [|e r IH]; simpl; auto.
  unfold bind, write_event at 1. rewrite IH. reflexivity.
Qed.

Lemma set_audio_started_same h :
  _audio_started h = true -> set_audio_started true h = h.
Proof. destruct h; simpl; intros ->; reflexivity. Qed.

(** A buffer that strips to nothing: the flush only clears it. *)
Lemma flush_blank h :
  PyStr.truthy (PyStr.strip (_sentence_buffer h)) = false ->
  _flush_buffer h = (Returned tt, set_sentence_buffer "" h, []).
Proof.
  intros T. unfold _flush_buffer, bind, self, assign. rewrite T. reflexivity.
Qed.

(** The engine raises: the flush clears the buffer and returns. *)
Lemma flush_fault h :
  let text := PyStr.strip (_sentence_buffer h) in
  PyStr.truthy text = true ->
  synthesize (engine h) text (voice_name h) (_current_language h) = None ->
  _flush_buffer h =
  (Returned tt, set_sentence_buffer "" h,
   [Engine text (voice_name h) (_current_language h) None]).
Proof.
  intros text T E.
  unfold _flush_buffer, bind, self, assign, run_in_executor.
  fold text. rewrite T. simpl. rewrite E. reflexivity.
Qed.

(** The engine returns audio: it is announced once and sent in chunks. *)
Lemma flush_audio h (pcm_bytes : list byte) (rate : Z) :
  let text := PyStr.strip (_sentence_buffer h) in
  PyStr.truthy text = true ->
  synthesize (engine h) text (voice_name h) (_current_language h)
    = Some (pcm_bytes, rate) ->
  _flush_buffer h =
  (Returned tt, set_audio_started true (set_sentence_buffer "" h),
   Engine text (voice_name h) (_current_language h) (Some (pcm_bytes, rate))
   :: (if _audio_started h then [] else [Write (AudioStart rate 2 1)])
   ++ map Write (audio_chunks pcm_bytes rate)).
Proof.
  intros text T E.
  unfold _flush_buffer, bind, self, assign, run_in_executor.
  fold text. rewrite T. simpl. rewrite E. simpl.
  destruct (_audio_started h) eqn:A; simpl;
    unfold write_event at 1; simpl; rewrite for_each_write; simpl.
  - rewrite set_audio_started_same by exact A. reflexivity.
  - reflexivity.
Qed.

Lemma same_session_refl h : same_session h h.
Proof. unfold same_session. auto. Qed.

Lemma same_session_trans h1 h2 h3 :
  same_session h1 h2 -> same_session h2 h3 -> same_session h1 h3.
Proof. unfold same_session. intuition congruence. Qed.

Lemma steady_ret h : steady h (ret tt h).
Proof.
  exists h, []. repeat split; auto.
Qed.

Lemma steady_bind (m k : M D unit) h :
  steady h (m h) -> (forall h1, steady h1 (k h1)) -> steady h ((m ;; k) h).
Proof.
  intros (h1 & t1 & E1 & S1 & F1 & C1 & U1) K.
  destruct (K h1) as (h2 & t2 & E2 & S2 & F2 & C2 & U2).
  exists h2, (t1 ++ t2). unfold bind. rewrite E1, E2.
  split; [reflexivity|]. split; [eapply same_session_trans; eauto|].
  rewrite framed_app, F1, count_app, existsb_app, C1, C2, U1, U2. auto.
Qed.

Lemma framed_audio_chunks (pcm_bytes : list byte) (rate : Z) :
  framed Started (map Write (audio_chunks pcm_bytes rate)) = Some Started.
Proof.
  apply framed_chunks. unfold audio_chunks. apply Forall_forall.
  intros e In. apply in_map_iff in In as (audio & <- & _). eauto.
Qed.

Lemma quiet_chunks (pcm_bytes : list byte) (rate : Z) :
  filter is_AudioStop (map Write (audio_chunks pcm_bytes rate)) = [].
Proof.
  unfold audio_chunks. induction (pcm_slices pcm_bytes); simpl; auto.
Qed.

Lemma trimmed_chunks (l : list OutEvent) :
  existsb dispatches_untrimmed (map Write l) = false.
Proof. induction l; simpl; auto. Qed.

Ltac session := unfold same_session; simpl; auto.

Lemma steady_flush h : steady h (_flush_buffer h).
Proof.
  destruct (PyStr.truthy (PyStr.strip (_sentence_buffer h))) eqn:T.
  - destruct (synthesize (engine h) (PyStr.strip (_sentence_buffer h))
                (voice_name h) (_current_language h)) as [[pcm rate]|] eqn:E.
    + rewrite (flush_audio h pcm rate T E).
      eexists _, _. split; [reflexivity|].
      split; [session|]. split; [|split].
      * destruct (_audio_started h); simpl; apply framed_audio_chunks.
      * unfold count. cbn [filter is_AudioStop].
        rewrite filter_app, quiet_chunks.
        destruct (_audio_started h); reflexivity.
      * cbn [existsb dispatches_untrimmed].
        rewrite (PyStrFacts.strip_trimmed _ T), existsb_app, trimmed_chunks.
        destruct (_audio_started h); reflexivity.
    + rewrite (flush_fault h T E).
      eexists _, _. split; [reflexivity|].
      split; [session|]. simpl.
      rewrite (PyStrFacts.strip_trimmed _ T).
      destruct (_audio_started h); auto.
  - rewrite (flush_blank h T).
    eexists _, _. split; [reflexivity|].
    split; [session|]. simpl. auto.
Qed.

(** What [_process_sentence] does to the buffer before it looks at the
    threshold. *)
Lemma process_sentence_run (sentence : string) h :
  let s := PyStr.strip sentence in
  let buffer :=
    if PyStr.truthy (_sentence_buffer h)
    then (_sentence_buffer h ++ " " ++ s)%string else s in
  _process_sentence sentence h =
  if PyStr.truthy s
  then if (20 <=? String.length buffer)%nat
       then _flush_buffer (set_sentence_buffer buffer h)
       else (Returned tt, set_sentence_buffer buffer h, [])
  else (Returned tt, h, []).
Proof.
  intros s buffer. unfold _process_sentence. fold s.
  destruct (PyStr.truthy s); cbn [negb]; [|reflexivity].
  unfold bind, self. subst buffer.
  destruct (PyStr.truthy (_sentence_buffer h)); unfold assign;
    cbn [_sentence_buffer set_sentence_buffer];
    match goal with
    | |- context [(20 <=? ?n)%nat] => destruct (20 <=? n)%nat
    end;
    try reflexivity;
    match goal with
    | |- context [_flush_buffer ?x] => destruct (_flush_buffer x) as [[[] ?] ?]
    end; reflexivity.
Qed.

Lemma steady_buffer (s : string) h r :
  steady (set_sentence_buffer s h) r -> steady h r.
Proof.
  intros (h' & log & E & S & F). exists h', log. split; [exact E|].
  split; [|exact F]. destruct S as (? & ? & ? & ? & ?).
  unfold same_session. simpl in *. auto.
Qed.

Lemma steady_detector (d : D) h r :
  steady (set_sbd d h) r -> steady h r.
Proof.
  intros (h' & log & E & S & F). exists h', log. split; [exact E|].
  split; [|exact F]. destruct S as (? & ? & ? & ? & ?).
  unfold same_session. simpl in *. auto.
Qed.

Lemma steady_process_sentence (sentence : string) h :
  steady h (_process_sentence sentence h).
Proof.
  rewrite process_sentence_run.
  destruct (PyStr.truthy (PyStr.strip sentence)); [|apply steady_ret].
  match goal with
  | |- context [(20 <=? ?n)%nat] => destruct (20 <=? n)%nat
  end.
  - eapply steady_buffer, steady_flush.
  - eapply steady_buffer, steady_ret.
Qed.

Lemma steady_sentences (sentences : list string) h :
  steady h (for_each sentences _process_sentence h).
Proof.
  revert h. induction sentences as [|s r IH]; intros h; simpl.
  - apply steady_ret.
  - apply steady_bind; [apply steady_process_sentence | exact IH].
Qed.

End HandlerFacts.

(** ** Event dispatch *)

Section DispatchFacts.
Context {D : Type} `{SentenceBoundaryDetector D}.
Implicit Types h : Handler D.

Lemma bind_assign {B} (f : Handler D -> Handler D) (k : unit -> M D B) h :
  bind (assign f) k h = k tt (f h).
Proof. unfold bind, assign. destruct (k tt (f h)) as [[? ?] ?]. reflexivity. Qed.

Lemma bind_self {B} (k : Handler D -> M D B) h :
  bind self k h = k h h.
Proof. unfold bind, self. destruct (k h h) as [[? ?] ?]. reflexivity. Qed.

Lemma bind_ret {A B} (a : A) (k : A -> M D B) h :
  bind (ret a) k h = k a h.
Proof. unfold bind, ret. destruct (k a h) as [[? ?] ?]. reflexivity. Qed.

Lemma bind_returned {A B} (m : M D A) (k : A -> M D B) h a h1 t1 :
  m h = (Returned a, h1, t1) ->
  bind m k h = let '(r, h2, t2) := k a h1 in (r, h2, t1 ++ t2).
Proof. intros E. unfold bind. rewrite E. reflexivity. Qed.

Lemma record_voice_run (voice : option VoiceData) h :
  record_voice voice h = (Returned tt, recorded voice h, []).
Proof.
  destruct h, voice as [[[[|]|] [[|]|]]|]; reflexivity.
Qed.

(** [handle_event] around the body of its [try] statement. *)
Lemma handle_event_of_try (event : Event) h :
  event <> Describe ->
  handle_event event h =
  match handle_event_try event h with
  | (Returned (Some b), h1, log) => (Returned b, h1, log)
  | (Returned None, h1, log) => (Returned true, h1, log)
  | (Raised err, h1, log) =>
      (Returned true, set_is_streaming false h1,
       log ++ [Write (Error (exn_text err) (exn_code err))])
  end.
Proof.
  intros N. unfold handle_event, bind, try_except.
  destruct event; try congruence;
    match goal with
    | |- context [handle_event_try ?e h] =>
        destruct (handle_event_try e h) as [[[[b|]|err] h1] log]
    end; cbn; rewrite ?app_nil_r; reflexivity.
Qed.

Lemma handle_describe h :
  handle_event Describe h = (Returned true, h, [Write Info]).
Proof. reflexivity. Qed.

Lemma handle_other (type : string) h :
  handle_event (OtherEvent type) h = (Returned true, h, []).
Proof. reflexivity. Qed.

(** A one-shot request during a stream is dropped on the spot. *)
Lemma handle_synthesize_streaming text voice h :
  _is_streaming h = true ->
  handle_event (Synthesize text voice) h = (Returned true, h, []).
Proof.
  intros S. rewrite handle_event_of_try by discriminate. unfold handle_event_try.
  rewrite bind_self, S. reflexivity.
Qed.

Lemma handle_synthesize_untexted voice h :
  _is_streaming h = false ->
  handle_event (Synthesize None voice) h =
  (Returned true, set_is_streaming false h,
   [Write (Error (exn_text (KeyError "text")) (exn_code (KeyError "text")))]).
Proof.
  intros S. rewrite handle_event_of_try by discriminate. unfold handle_event_try.
  rewrite bind_self, S. reflexivity.
Qed.

Lemma handle_start_disabled voice h :
  no_streaming (cli_args h) = true ->
  handle_event (SynthesizeStart voice) h = (Returned true, h, []).
Proof.
  intros S. rewrite handle_event_of_try by discriminate. unfold handle_event_try.
  rewrite bind_self, S. reflexivity.
Qed.

Lemma handle_start voice h :
  no_streaming (cli_args h) = false ->
  handle_event (SynthesizeStart voice) h =
  (Returned true,
   recorded voice
     (set_sentence_buffer ""
        (set_sbd sbd_new (set_audio_started false (set_is_streaming true h)))),
   []).
Proof.
  intros S. rewrite handle_event_of_try by discriminate. unfold handle_event_try.
  rewrite bind_self, S, !bind_assign.
  rewrite (bind_returned _ _ _ _ _ _ (record_voice_run _ _)). reflexivity.
Qed.

Lemma handle_chunk_idle text h :
  _is_streaming h = false ->
  handle_event (SynthesizeChunk text) h = (Returned true, h, []).
Proof.
  intros S. rewrite handle_event_of_try by discriminate. unfold handle_event_try.
  rewrite bind_self, S. reflexivity.
Qed.

Lemma handle_chunk_untexted h :
  _is_streaming h = true ->
  handle_event (SynthesizeChunk None) h =
  (Returned true, set_is_streaming false h,
   [Write (Error (exn_text (KeyError "text")) (exn_code (KeyError "text")))]).
Proof.
  intros S. rewrite handle_event_of_try by discriminate. unfold handle_event_try.
  rewrite bind_self, S. reflexivity.
Qed.

Lemma handle_stop_idle h :
  _is_streaming h = false ->
  handle_event SynthesizeStop h = (Returned true, h, []).
Proof.
  intros S. rewrite handle_event_of_try by discriminate. unfold handle_event_try.
  rewrite bind_self, S. reflexivity.
Qed.

(** A chunk of text while streaming: the sentences the detector releases
    are processed in order. *)
Lemma handle_chunk (text : string) h :
  _is_streaming h = true ->
  handle_event (SynthesizeChunk (Some text)) h =
  let '(sentences, d) := add_chunk (sbd h) text in
  let '(_, h1, log) := for_each sentences _process_sentence (set_sbd d h) in
  (Returned true, h1, log).
Proof.
  intros S. rewrite handle_event_of_try by discriminate. unfold handle_event_try.
  rewrite bind_self, S. cbn [negb text_from_event].
  rewrite bind_ret, bind_self.
  destruct (add_chunk (sbd h) text) as [sentences d].
  rewrite bind_assign.
  destruct (steady_sentences sentences (set_sbd d h))
    as (h1 & log & E & _).
  rewrite (bind_returned _ _ _ _ _ _ E), E. cbn.
  rewrite app_nil_r. reflexivity.
Qed.

(** The end of a stream, step by step. *)
Lemma handle_stop h :
  _is_streaming h = true ->
  handle_event SynthesizeStop h =
  let '(remaining, d) := finish (sbd h) in
  let '(_, h1, log1) :=
    (if PyStr.truthy remaining then _process_sentence remaining else ret tt)
      (set_sbd d h) in
  let '(_, h2, log2) := _flush_buffer h1 in
  (Returned true, set_is_streaming false h2,
   log1 ++ log2
   ++ (if _audio_started h2 then [Write AudioStop] else [])
   ++ [Write SynthesizeStopped]).
Proof.
  intros S. rewrite handle_event_of_try by discriminate. unfold handle_event_try.
  rewrite bind_self, S. cbn [negb].
  destruct (finish (sbd h)) as [remaining d].
  rewrite bind_assign.
  assert (steady (set_sbd d h)
            ((if PyStr.truthy remaining
              then _process_sentence remaining else ret tt) (set_sbd d h)))
    as (h1 & log1 & E1 & _)
    by (destruct (PyStr.truthy remaining);
        [apply steady_process_sentence | apply steady_ret]).
  rewrite (bind_returned _ _ _ _ _ _ E1), E1.
  destruct (steady_flush h1) as (h2 & log2 & E2 & _).
  rewrite (bind_returned _ _ _ _ _ _ E2), E2.
  rewrite bind_self.
  destruct (_audio_started h2); cbn; rewrite ?app_nil_r; reflexivity.
Qed.

(** The one-shot pipeline, step by step. *)
Lemma synthesize_full_run (text : string) h :
  _handle_synthesize_full text h =
  let h0 :=
    set_sbd sbd_new (set_sentence_buffer "" (set_audio_started false h)) in
  let '(sentences, d) := add_chunk sbd_new text in
  let '(remaining, d) := finish d in
  let sentences :=
    if PyStr.truthy remaining then sentences ++ [remaining] else sentences in
  let '(_, h1, log1) := for_each sentences _process_sentence (set_sbd d h0) in
  let '(_, h2, log2) := _flush_buffer h1 in
  (Returned true, h2,
   log1 ++ log2 ++ (if _audio_started h2 then [Write AudioStop] else [])).
Proof.
  unfold _handle_synthesize_full.
  rewrite !bind_assign, bind_self. cbn [sbd set_sbd].
  destruct (add_chunk sbd_new text) as [sentences d0].
  destruct (finish d0) as [remaining d].
  rewrite bind_assign. cbn zeta.
  match goal with
  | |- context [for_each ?l _process_sentence ?x] =>
      destruct (steady_sentences l x) as (h1 & log1 & E1 & _)
  end.
  rewrite (bind_returned _ _ _ _ _ _ E1), E1.
  destruct (steady_flush h1) as (h2 & log2 & E2 & _).
  rewrite (bind_returned _ _ _ _ _ _ E2), E2.
  rewrite bind_self.
  destruct (_audio_started h2); cbn; rewrite ?app_nil_r; reflexivity.
Qed.

(** A one-shot request accepted while idle: the voice and the language of
    the event are recorded, then the pipeline runs. *)
Lemma handle_synthesize_idle (text : string) voice h :
  _is_streaming h = false ->
  handle_event (Synthesize (Some text) voice) h =
  _handle_synthesize_full text (recorded voice h).
Proof.
  intros S. rewrite handle_event_of_try by discriminate. unfold handle_event_try.
  rewrite bind_self, S. cbn [text_from_event].
  rewrite bind_ret.
  rewrite (bind_returned _ _ _ _ _ _ (record_voice_run _ _)).
  unfold bind at 1. rewrite synthesize_full_run. cbn zeta.
  destruct (add_chunk sbd_new text) as [sentences d0].
  destruct (finish d0) as [remaining d].
  match goal with
  | |- context [for_each ?l _process_sentence ?x] =>
      destruct (for_each l _process_sentence x) as [[o1 h1] log1]
  end.
  destruct (_flush_buffer h1) as [[o2 h2] log2].
  cbn. rewrite ?app_nil_r. reflexivity.
Qed.

End DispatchFacts.

(** ** Utterances *)

Section UtteranceFacts.
Context {D : Type} `{SentenceBoundaryDetector D}.
Implicit Types h : Handler D.

Lemma steady_inv h (o : Outcome unit) h' (log : list Action) :
  steady h (o, h', log) ->
  o = Returned tt /\ same_session h h' /\
  framed (phase_of (_audio_started h)) log
    = Some (phase_of (_audio_started h')) /\
  count is_AudioStop log = 0 /\
  existsb dispatches_untrimmed log = false.
Proof.
  intros (a & b & E & R). injection E as -> -> ->. auto.
Qed.

Lemma steady_trans h h1 h2 (log1 log2 : list Action) :
  steady h (Returned tt, h1, log1) ->
  steady h1 (Returned tt, h2, log2) ->
  steady h (Returned tt, h2, log1 ++ log2).
Proof.
  intros S1 S2.
  apply steady_inv in S1 as (_ & S1 & F1 & C1 & U1).
  apply steady_inv in S2 as (_ & S2 & F2 & C2 & U2).
  exists h2, (log1 ++ log2). split; [reflexivity|].
  split; [eapply same_session_trans; eauto|].
  rewrite framed_app, F1, count_app, existsb_app, C1, C2, U1, U2. auto.
Qed.

Lemma framed_stop (started : bool) :
  framed (phase_of started) (if started then [Write AudioStop] else [])
  = Some (phase_of started).
Proof. destruct started; reflexivity. Qed.

(** The one-shot pipeline frames its audio from scratch and closes it. *)
Lemma full_framed (text : string) h :
  exists h' log,
    _handle_synthesize_full text h = (Returned true, h', log) /\
    same_session h h' /\
    framed Silent log = Some (phase_of (_audio_started h')) /\
    count is_AudioStop log = Nat.b2n (_audio_started h') /\
    existsb dispatches_untrimmed log = false.
Proof.
  rewrite synthesize_full_run. cbn zeta.
  destruct (add_chunk sbd_new text) as [sentences d0].
  destruct (finish d0) as [remaining d].
  match goal with
  | |- context [for_each ?l _process_sentence ?x] =>
      pose proof (steady_sentences l x) as S1;
      destruct (for_each l _process_sentence x) as [[o1 h1] log1]
  end.
  pose proof (steady_flush h1) as S2.
  destruct (_flush_buffer h1) as [[o2 h2] log2].
  destruct (steady_inv _ _ _ _ S1) as (-> & _).
  destruct (steady_inv _ _ _ _ S2) as (-> & _).
  destruct (steady_inv _ _ _ _ (steady_trans _ _ _ _ _ S1 S2))
    as (_ & S & F & C & U).
  simpl in F.
  eexists _, _. split; [reflexivity|]. split; [|split; [|split]].
  - destruct S as (? & ? & ? & ? & ?). unfold same_session. simpl in *. auto.
  - rewrite app_assoc, framed_app, F. apply framed_stop.
  - rewrite app_assoc, count_app, C. destruct (_audio_started h2); reflexivity.
  - rewrite app_assoc, existsb_app, U. destruct (_audio_started h2); reflexivity.
Qed.

(** The end of a stream closes the audio it has started. *)
Lemma stop_framed h :
  _is_streaming h = true ->
  exists h' log,
    handle_event SynthesizeStop h = (Returned true, h', log) /\
    _is_streaming h' = false /\
    same_session h (set_is_streaming true h') /\
    framed (phase_of (_audio_started h)) log
      = Some (phase_of (_audio_started h')) /\
    count is_AudioStop log = Nat.b2n (_audio_started h') /\
    existsb dispatches_untrimmed log = false.
Proof.
  intros St. rewrite (handle_stop h St).
  destruct (finish (sbd h)) as [remaining d].
  match goal with
  | |- context [?m (set_sbd d h)] =>
      assert (steady (set_sbd d h) (m (set_sbd d h))) as S1
        by (destruct (PyStr.truthy remaining);
            [apply steady_process_sentence | apply steady_ret]);
      destruct (m (set_sbd d h)) as [[o1 h1] log1]
  end.
  pose proof (steady_flush h1) as S2.
  destruct (_flush_buffer h1) as [[o2 h2] log2].
  destruct (steady_inv _ _ _ _ S1) as (-> & _).
  destruct (steady_inv _ _ _ _ S2) as (-> & _).
  destruct (steady_inv _ _ _ _ (steady_trans _ _ _ _ _ S1 S2))
    as (_ & S & F & C & U).
  simpl in F.
  eexists _, _. split; [reflexivity|]. split; [reflexivity|].
  split; [|split; [|split]].
  - destruct S as (? & ? & ? & ? & ?). unfold same_session. simpl in *.
    rewrite St. auto.
  - simpl. rewrite app_assoc, framed_app, F, framed_app, framed_stop.
    destruct (_audio_started h2); reflexivity.
  - simpl. rewrite app_assoc, count_app, C.
    destruct (_audio_started h2); reflexivity.
  - rewrite app_assoc, existsb_app, U.
    destruct (_audio_started h2); reflexivity.
Qed.

Lemma chunk_steady (text : string) h :
  _is_streaming h = true ->
  exists h' log,
    handle_event (SynthesizeChunk (Some text)) h = (Returned true, h', log) /\
    steady h (Returned tt, h', log).
Proof.
  intros St. rewrite (handle_chunk text h St).
  destruct (add_chunk (sbd h) text) as [sentences d].
  pose proof (steady_sentences sentences (set_sbd d h)) as S.
  destruct (for_each sentences _process_sentence (set_sbd d h))
    as [[o1 h1] log1].
  destruct (steady_inv _ _ _ _ S) as (-> & _).
  eexists _, _. split; [reflexivity|].
  apply (steady_detector d), S.
Qed.

(** An event inside a streaming span keeps the span open. *)
Lemma mid_steady (event : Event) h :
  mid_event event = true -> _is_streaming h = true ->
  exists h' log,
    handle_event event h = (Returned true, h', log) /\
    steady h (Returned tt, h', log).
Proof.
  intros M St. destruct event as [|text voice|voice|[text|]| |type];
    try discriminate.
  - exists h, [Write Info]. split; [reflexivity|].
    exists h, [Write Info]. split; [reflexivity|].
    split; [apply same_session_refl|].
    destruct (_audio_started h); auto.
  - exists h, []. split; [apply handle_synthesize_streaming, St|].
    apply steady_ret.
  - apply chunk_steady, St.
  - exists h, []. split; [reflexivity | apply steady_ret].
Qed.

(** [handle_event] always returns [True]: the read loop goes on. *)
Lemma handle_event_returns (event : Event) h :
  exists h' log,
    handle_event event h = (Returned true, h', log) /\
    cli_args h' = cli_args h /\ engine h' = engine h /\
    (no_override event = true ->
     _current_voice h' = _current_voice h /\
     _current_language h' = _current_language h).
Proof.
  destruct event as [|text voice|voice|text| |type].
  - eexists _, _. split; [apply handle_describe|]. auto.
  - destruct (_is_streaming h) eqn:St.
    + eexists _, _. split; [apply handle_synthesize_streaming, St|]. auto.
    + destruct text as [text|].
      * rewrite (handle_synthesize_idle text voice h St).
        destruct (full_framed text (recorded voice h))
          as (h' & log & E & (Sa & Sb & Sc & Sd & Se) & _).
        exists h', log. split; [exact E|]. simpl in *.
        split; [auto|]. split; [auto|]. intros N. rewrite Sd, Se.
        destruct voice as [[[[|]|] [[|]|]]|]; simpl in *; auto; discriminate.
      * eexists _, _. split; [apply handle_synthesize_untexted, St|]. auto.
  - destruct (no_streaming (cli_args h)) eqn:Ns.
    + eexists _, _. split; [apply handle_start_disabled, Ns|]. auto.
    + eexists _, _. split; [apply handle_start, Ns|]. simpl.
      split; [auto|]. split; [auto|]. intros N.
      destruct voice as [[[[|]|] [[|]|]]|]; simpl in *; auto; discriminate.
  - destruct (_is_streaming h) eqn:St.
    + destruct text as [text|].
      * destruct (chunk_steady text h St) as (h' & log & E & S).
        apply steady_inv in S as (_ & (Sa & Sb & Sc & Sd & Se) & _).
        eexists _, _. split; [exact E|]. auto.
      * eexists _, _. split; [apply handle_chunk_untexted, St|]. auto.
    + eexists _, _. split; [apply handle_chunk_idle, St|]. auto.
  - destruct (_is_streaming h) eqn:St.
    + destruct (stop_framed h St)
        as (h' & log & E & _ & (Sa & Sb & Sc & Sd & Se) & _).
      simpl in *. eexists _, _. split; [exact E|]. auto.
    + eexists _, _. split; [apply handle_stop_idle, St|]. auto.
  - eexists _, _. split; [apply handle_other|]. auto.
Qed.

Lemma run_raw_cons (event : Event) (rest : list Event) h h1 log1 :
  handle_event event h = (Returned true, h1, log1) ->
  run_raw (event :: rest) h =
  let '(h2, log2) := run_raw rest h1 in (h2, log1 ++ log2).
Proof. intros E. simpl. rewrite E. reflexivity. Qed.

Lemma run_raw_app (l1 l2 : list Event) :
  forall h, run_raw (l1 ++ l2) h =
    let '(h1, log1) := run_raw l1 h in
    let '(h2, log2) := run_raw l2 h1 in (h2, log1 ++ log2).
Proof.
  induction l1 as [|event rest IH]; intros h.
  - simpl. destruct (run_raw l2 h). reflexivity.
  - destruct (handle_event_returns event h) as (h1 & log1 & E & _).
    rewrite <- app_comm_cons, !(run_raw_cons _ _ _ _ _ E), IH.
    destruct (run_raw rest h1) as [h2 log2].
    destruct (run_raw l2 h2) as [h3 log3].
    rewrite app_assoc. reflexivity.
Qed.

(** The events inside a streaming span, taken together. *)
Lemma mids_steady (mids : list Event) :
  forall h, forallb mid_event mids = true -> _is_streaming h = true ->
    exists h' log, run_raw mids h = (h', log) /\
                   steady h (Returned tt, h', log).
Proof.
  induction mids as [|event rest IH]; intros h M St.
  - exists h, []. split; [reflexivity | apply steady_ret].
  - simpl in M. apply andb_true_iff in M as [Me Mr].
    destruct (mid_steady event h Me St) as (h1 & log1 & E1 & S1).
    assert (_is_streaming h1 = true) as St1.
    { destruct (steady_inv _ _ _ _ S1) as (_ & (_ & _ & Sc & _) & _).
      congruence. }
    destruct (IH h1 Mr St1) as (h2 & log2 & E2 & S2).
    exists h2, (log1 ++ log2). rewrite (run_raw_cons _ _ _ _ _ E1), E2.
    split; [reflexivity|]. eapply steady_trans; eauto.
Qed.

End UtteranceFacts.

(** ** Audio slices *)

Section SliceFacts.
Context {D : Type} `{SentenceBoundaryDetector D}.

Lemma chunk_size_positive : 0 < chunk_size.
Proof. unfold chunk_size. lia. Qed.

Lemma length_pcm_slices (pcm_bytes : list byte) :
  length (pcm_slices pcm_bytes)
  = length (PyBytes.range0 (length pcm_bytes) chunk_size).
Proof. unfold pcm_slices. apply length_map. Qed.

(** The slices laid end to end are the buffer. *)
Lemma pcm_slices_concat (pcm_bytes : list byte) :
  concat (pcm_slices pcm_bytes) = pcm_bytes.
Proof.
  unfold pcm_slices, PyBytes.range0.
  apply PyBytesFacts.windows_concat; [apply chunk_size_positive|].
  rewrite <- PyBytesFacts.length_range0.
  apply PyBytesFacts.range0_covers, chunk_size_positive.
Qed.

(** Slice [k] is the window of [chunk_size] bytes at offset [k * chunk_size],
    and that offset lies inside the buffer. *)
Lemma pcm_slices_nth (pcm_bytes : list byte) (k : nat) :
  k < length (pcm_slices pcm_bytes) ->
  nth k (pcm_slices pcm_bytes) []
    = firstn chunk_size (skipn (k * chunk_size) pcm_bytes) /\
  k * chunk_size < length pcm_bytes.
Proof.
  rewrite length_pcm_slices. intros Hk. split.
  - unfold pcm_slices.
    rewrite (nth_indep _ [] (PyBytes.slice pcm_bytes 0 (0 + chunk_size)))
      by (rewrite length_map; exact Hk).
    rewrite (map_nth (fun i => PyBytes.slice pcm_bytes i (i + chunk_size))).
    rewrite PyBytesFacts.nth_range0 by exact Hk.
    apply PyBytesFacts.slice_window.
  - apply PyBytesFacts.range0_below; [apply chunk_size_positive | exact Hk].
Qed.

Lemma pcm_slices_length (pcm_bytes : list byte) (k : nat) :
  k < length (pcm_slices pcm_bytes) ->
  1 <= length (nth k (pcm_slices pcm_bytes) []) <= chunk_size.
Proof.
  intros Hk. destruct (pcm_slices_nth pcm_bytes k Hk) as [-> Lt].
  pose proof chunk_size_positive.
  rewrite length_firstn, length_skipn. lia.
Qed.

Lemma pcm_slices_full (pcm_bytes : list byte) (k : nat) :
  S k < length (pcm_slices pcm_bytes) ->
  length (nth k (pcm_slices pcm_bytes) []) = chunk_size.
Proof.
  intros Hk.
  destruct (pcm_slices_nth pcm_bytes k ltac:(lia)) as [-> _].
  destruct (pcm_slices_nth pcm_bytes (S k) Hk) as [_ Lt].
  rewrite length_firstn, length_skipn. rewrite Nat.mul_succ_l in Lt. lia.
Qed.

End SliceFacts.

(** ** Flushing and dispatch: the claims *)

Section FlushClaims.
Context {D : Type} `{SentenceBoundaryDetector D}.
Implicit Types h : Handler D.

(** A flush of a buffer that is not blank calls the engine once, first
    thing, with the stripped buffer, and then only writes events. *)
Lemma flush_dispatch h :
  PyStr.truthy (PyStr.strip (_sentence_buffer h)) = true ->
  exists h' writes,
    _flush_buffer h =
    (Returned tt, h',
     Engine (PyStr.strip (_sentence_buffer h)) (voice_name h)
       (_current_language h)
       (synthesize (engine h) (PyStr.strip (_sentence_buffer h))
          (voice_name h) (_current_language h))
     :: map Write writes) /\
    _sentence_buffer h' = "".
Proof.
  intros T.
  destruct (synthesize (engine h) (PyStr.strip (_sentence_buffer h))
              (voice_name h) (_current_language h)) as [[pcm rate]|] eqn:E.
  - rewrite (flush_audio h pcm rate T E).
    exists (set_audio_started true (set_sentence_buffer "" h)),
      ((if _audio_started h then [] else [AudioStart rate 2 1])
       ++ audio_chunks pcm rate).
    split; [|reflexivity]. rewrite map_app.
    destruct (_audio_started h); reflexivity.
  - rewrite (flush_fault h T E).
    exists (set_sentence_buffer "" h), []. auto.
Qed.

Lemma blank_truthy (s : string) :
  PyStr.blank s = false <-> PyStr.truthy (PyStr.strip s) = true.
Proof.
  rewrite PyStrFacts.truthy_true, <- PyStrFacts.strip_blank.
  destruct (PyStr.blank s); split; congruence.
Qed.

Lemma voice_name_requested h (v : string) :
  _current_voice h = Some v -> v <> "" ->
  In v (available_voices (engine h)) -> voice_name h = v.
Proof.
  intros Cv Nv Iv. unfold voice_name. rewrite Cv.
  apply PyStrFacts.truthy_true in Nv. apply PyStrFacts.mem_In in Iv.
  rewrite Nv, Iv. reflexivity.
Qed.

Lemma voice_name_otherwise h :
  (forall v, _current_voice h = Some v ->
             v = "" \/ ~ In v (available_voices (engine h))) ->
  voice_name h = hd "M1" (available_voices (engine h)).
Proof.
  intros O. unfold voice_name.
  assert (hd "M1" (available_voices (engine h))
          = match available_voices (engine h) with
            | first :: _ => first
            | [] => "M1"
            end) as -> by (destruct (available_voices (engine h)); reflexivity).
  destruct (_current_voice h) as [v|]; [|reflexivity].
  destruct (O v eq_refl) as [-> | N]; [reflexivity|].
  apply PyStrFacts.mem_not_In in N. rewrite N, andb_false_r. reflexivity.
Qed.

(** C1 (as amended). On every flush that dispatches text, the voice handed
    to the engine is the session's current voice when that is a non-empty
    name found in the catalog, and otherwise the first catalog entry, or
    the literal ["M1"] when the catalog is empty; no configured default
    voice takes part. *)
Theorem flush_voice_resolution h :
  PyStr.truthy (PyStr.strip (_sentence_buffer h)) = true ->
  let catalog := available_voices (engine h) in
  (exists result rest,
      snd (_flush_buffer h) =
      Engine (PyStr.strip (_sentence_buffer h)) (voice_name h)
        (_current_language h) result :: rest) /\
  (forall v, _current_voice h = Some v -> v <> "" -> In v catalog ->
             voice_name h = v) /\
  ((forall v, _current_voice h = Some v -> v = "" \/ ~ In v catalog) ->
   voice_name h = hd "M1" catalog).
Proof.
  intros T catalog. split; [|split].
  - destruct (flush_dispatch h T) as (h' & writes & E & _).
    rewrite E. simpl. eauto.
  - apply voice_name_requested.
  - apply voice_name_otherwise.
Qed.

(** C4. A one-shot [Synthesize] received while streaming is acknowledged
    ([handle_event] returns [True]), nothing is written, the engine is not
    called, and the handler is left exactly as it was, still streaming. *)
Theorem synthesize_ignored_while_streaming h text voice :
  _is_streaming h = true ->
  handle_event (Synthesize text voice) h = (Returned true, h, []).
Proof. apply handle_synthesize_streaming. Qed.

(** C5. When the engine raises during a flush, the flush returns normally:
    the only action is the failed engine call (no [Error] event, no audio
    event), and the handler is the one the flush started from with the
    skipped segment taken out of the buffer, so streaming mode, the
    audio-started flag, the voice, the language and the detector are
    untouched. *)
Theorem flush_contains_engine_fault h :
  let text := PyStr.strip (_sentence_buffer h) in
  PyStr.truthy text = true ->
  synthesize (engine h) text (voice_name h) (_current_language h) = None ->
  _flush_buffer h =
    (Returned tt, set_sentence_buffer "" h,
     [Engine text (voice_name h) (_current_language h) None]) /\
  count is_Write (snd (_flush_buffer h)) = 0 /\
  let h' := snd (fst (_flush_buffer h)) in
  _is_streaming h' = _is_streaming h /\
  _audio_started h' = _audio_started h /\
  _current_voice h' = _current_voice h /\
  _current_language h' = _current_language h /\
  sbd h' = sbd h /\ cli_args h' = cli_args h /\ engine h' = engine h.
Proof.
  intros text T E. rewrite (flush_fault h T E). simpl. auto 10.
Qed.

(** C6. When the body of the [try] statement of [handle_event] raises, the
    handler writes one [Error] event carrying the message and the class
    name of the exception, after whatever was written before, clears the
    streaming flag, and returns [True]. *)
Theorem unexpected_exception_reported (event : Event) h err h1 log :
  handle_event_try event h = (Raised err, h1, log) ->
  handle_event event h =
    (Returned true, set_is_streaming false h1,
     log ++ [Write (Error (exn_text err) (exn_code err))]) /\
  _is_streaming (snd (fst (handle_event event h))) = false.
Proof.
  intros E.
  assert (event <> Describe) as N by (intros ->; discriminate).
  rewrite (handle_event_of_try event h N), E. auto.
Qed.

(** C7. A [SynthesizeStop] received while streaming runs, in this order:
    the detector's [finish], sentence processing of what it returns when
    that is not empty, a final flush, [AudioStop] when the audio-started
    flag is set, [SynthesizeStopped] in every case; the streaming flag is
    then cleared and [handle_event] returns [True]. *)
Theorem synthesize_stop_sequence h :
  _is_streaming h = true ->
  let '(remaining, d) := finish (sbd h) in
  let '(_, h1, log1) :=
    (if PyStr.truthy remaining then _process_sentence remaining else ret tt)
      (set_sbd d h) in
  let '(_, h2, log2) := _flush_buffer h1 in
  handle_event SynthesizeStop h =
    (Returned true, set_is_streaming false h2,
     log1 ++ log2
     ++ (if _audio_started h2 then [Write AudioStop] else [])
     ++ [Write SynthesizeStopped]) /\
  _is_streaming (snd (fst (handle_event SynthesizeStop h))) = false.
Proof.
  intros St. rewrite (handle_stop h St).
  destruct (finish (sbd h)) as [remaining d].
  destruct ((if PyStr.truthy remaining
             then _process_sentence remaining else ret tt) (set_sbd d h))
    as [[o1 h1] log1].
  destruct (_flush_buffer h1) as [[o2 h2] log2]. auto.
Qed.

(** The white space of the model is the ASCII white space of [str.strip]. *)
Lemma is_space_codes (c : ascii) :
  PyStr.is_space c = true <->
  In (nat_of_ascii c) [9; 10; 11; 12; 13; 28; 29; 30; 31; 32].
Proof.
  unfold PyStr.is_space. set (n := nat_of_ascii c).
  rewrite orb_true_iff, !andb_true_iff, !Nat.leb_le. simpl In. lia.
Qed.

(** C9. A sentence is stripped and, unless that leaves nothing, appended to
    the buffer after a single space when the buffer is not empty; the
    buffer is flushed at once when it then holds at least 20 characters
    and kept otherwise. The text a flush hands to the engine is the stripped
    buffer: the buffer without its leading and trailing white space, white
    space being tab, line feed, vertical tab, form feed, carriage return,
    the separators 28 to 31 and the space. A flush of an empty or
    white-space-only buffer does nothing but clear it, and whatever
    sentences are processed, the engine never receives an empty text or
    one with white space at either end. *)
Theorem sentence_buffering h (sentence : string) :
  let s := PyStr.strip sentence in
  let buffer :=
    if PyStr.truthy (_sentence_buffer h)
    then (_sentence_buffer h ++ " " ++ s)%string else s in
  _process_sentence sentence h =
    (if PyStr.truthy s
     then if (20 <=? String.length buffer)%nat
          then _flush_buffer (set_sentence_buffer buffer h)
          else (Returned tt, set_sentence_buffer buffer h, [])
     else (Returned tt, h, [])) /\
  (PyStr.blank (_sentence_buffer h) = true ->
   _flush_buffer h = (Returned tt, set_sentence_buffer "" h, [])) /\
  (PyStr.blank (_sentence_buffer h) = false ->
   let text := PyStr.strip (_sentence_buffer h) in
   exists lead trail h' writes,
     _flush_buffer h =
       (Returned tt, h',
        Engine text (voice_name h) (_current_language h)
          (synthesize (engine h) text (voice_name h) (_current_language h))
        :: map Write writes) /\
     _sentence_buffer h' = "" /\
     _sentence_buffer h = (lead ++ text ++ trail)%string /\
     PyStr.blank lead = true /\ PyStr.blank trail = true /\
     text <> "" /\
     PyStr.head_is_space text = false /\ PyStr.last_is_space text = false) /\
  (forall sentences,
      existsb dispatches_untrimmed
        (snd (for_each sentences _process_sentence h)) = false) /\
  (forall c : ascii,
      PyStr.is_space c = true <->
      In (nat_of_ascii c) [9; 10; 11; 12; 13; 28; 29; 30; 31; 32]).
Proof.
  intros s buffer. split; [apply process_sentence_run|].
  split; [|split; [|split]].
  - intros B. apply flush_blank.
    apply PyStrFacts.strip_blank in B. rewrite B. reflexivity.
  - intros B text. apply blank_truthy in B.
    destruct (flush_dispatch h B) as (h' & writes & E & Bf).
    destruct (PyStrFacts.strip_spec (_sentence_buffer h))
      as (lead & trail & Bl & Bt & Es & Hd & La).
    exists lead, trail, h', writes. split; [exact E|].
    apply PyStrFacts.truthy_true in B. auto 10.
  - intros sentences.
    destruct (steady_sentences sentences h) as (h' & log & E & _ & _ & _ & U).
    rewrite E. exact U.
  - apply is_space_codes.
Qed.

End FlushClaims.

(** ** The language handed to the model *)

Lemma short_lang_eq (lang_code : string) :
  short_lang lang_code =
  let short := PyStr.lower (PyStr.prefix 2 lang_code) in
  if PyStr.mem short supported_langs then short else "en".
Proof.
  unfold short_lang. destruct lang_code as [|c r]; reflexivity.
Qed.

Lemma short_lang_supported (lang_code : string) :
  In (short_lang lang_code) supported_langs.
Proof.
  rewrite short_lang_eq. cbv zeta.
  destruct (PyStr.mem _ supported_langs) eqn:M.
  - apply PyStrFacts.mem_In, M.
  - simpl. auto.
Qed.

(** C2 (as amended). In every call of [synthesize] on a loaded engine the
    language handed to the model is the first two characters of the language
    code, lower-cased, when that is one of the supported languages, and the
    fixed constant ["en"] otherwise; the [--language] setting plays no part
    in it. *)
Theorem synthesize_language_fallback (eng : SupertonicEngine)
    (model : string -> string -> string -> option (list byte))
    (dir text voice lang_code : string) :
  tts eng = Some model -> styles_dir eng = Some dir ->
  let short := PyStr.lower (PyStr.prefix 2 lang_code) in
  let lang := if PyStr.mem short supported_langs then short else "en" in
  synthesize eng text voice lang_code =
    option_map (fun pcm => (pcm, sample_rate eng))
      (model text lang (style_path dir voice)) /\
  short_lang lang_code = lang /\
  In lang supported_langs.
Proof.
  intros T S. cbv zeta. unfold synthesize. rewrite T, S, short_lang_eq.
  cbv zeta. split; [|split].
  - destruct (model text _ (style_path dir voice)); reflexivity.
  - reflexivity.
  - pose proof (short_lang_supported lang_code) as I.
    rewrite short_lang_eq in I. exact I.
Qed.

(** ** Utterances: the claims *)

Section UtteranceClaims.
Context {D : Type} `{SentenceBoundaryDetector D}.
Implicit Types h : Handler D.

(** A streaming span, opened and not yet closed. *)
Lemma span_open voice (mids : list Event) h :
  no_streaming (cli_args h) = false ->
  forallb mid_event mids = true ->
  exists h1 log,
    run_raw (SynthesizeStart voice :: mids) h = (h1, log) /\
    _is_streaming h1 = true /\
    framed Silent log = Some (phase_of (_audio_started h1)) /\
    count is_AudioStop log = 0.
Proof.
  intros Ns M.
  rewrite (run_raw_cons _ _ _ _ _ (handle_start voice h Ns)).
  match goal with
  | |- context [run_raw mids ?x] =>
      destruct (mids_steady mids x M eq_refl) as (h1 & log & E & S)
  end.
  rewrite E. apply steady_inv in S as (_ & (_ & _ & St & _) & F & C & _).
  exists h1, log. simpl in *. auto.
Qed.

(** A streaming span with its end. *)
Lemma span_framed voice (mids : list Event) (e : SpanEnd) h :
  no_streaming (cli_args h) = false ->
  forallb mid_event mids = true ->
  exists h' log,
    run_raw (SynthesizeStart voice :: mids ++ closing e) h = (h', log) /\
    framed Silent log = Some (phase_of (_audio_started h')) /\
    (e = Stopped -> count is_AudioStop log = Nat.b2n (_audio_started h')).
Proof.
  intros Ns M.
  destruct (span_open voice mids h Ns M) as (h1 & log1 & E1 & St & F1 & C1).
  rewrite app_comm_cons, run_raw_app, E1.
  destruct e; simpl closing.
  - exists h1, (log1 ++ []). split; [reflexivity|].
    rewrite app_nil_r. split; [exact F1 | discriminate].
  - destruct (stop_framed h1 St) as (h2 & log2 & E2 & _ & _ & F2 & C2 & _).
    rewrite (run_raw_cons _ _ _ _ _ E2). simpl.
    exists h2, (log1 ++ log2 ++ []). split; [reflexivity|].
    rewrite app_nil_r, framed_app, F1, count_app, C1, C2. auto.
  - rewrite (run_raw_cons _ _ _ _ _ (handle_chunk_untexted h1 St)). simpl.
    eexists _, _. split; [reflexivity|].
    rewrite framed_app, F1. simpl.
    split; [destruct (_audio_started h1); reflexivity | discriminate].
Qed.

(** A one-shot request accepted while idle. *)
Lemma one_shot_framed (text : string) voice h :
  _is_streaming h = false ->
  exists h' log,
    run_raw [Synthesize (Some text) voice] h = (h', log) /\
    framed Silent log = Some (phase_of (_audio_started h')) /\
    count is_AudioStop log = Nat.b2n (_audio_started h').
Proof.
  intros St.
  destruct (full_framed text (recorded voice h)) as (h' & log & E & _ & F & C & _).
  rewrite <- (handle_synthesize_idle text voice h St) in E.
  rewrite (run_raw_cons _ _ _ _ _ E). simpl.
  exists h', (log ++ []). rewrite app_nil_r. auto.
Qed.

Lemma utterance_framed (events : list Event) h :
  utterance h events ->
  exists h' log,
    run_raw events h = (h', log) /\
    framed Silent log = Some (phase_of (_audio_started h')).
Proof.
  intros [text voice St | voice mids e Ns M].
  - destruct (one_shot_framed text voice h St) as (h' & log & E & F & _). eauto.
  - destruct (span_framed voice mids e h Ns M) as (h' & log & E & F & _). eauto.
Qed.

(** C3 (as amended). For every utterance that runs to its end (a one-shot
    [Synthesize] accepted while idle, or a streaming span from
    [SynthesizeStart] to [SynthesizeStop] with only well-formed events in
    between), [AudioStop] is emitted if and only if [AudioStart] was, and
    each at most once. *)
Theorem audio_stop_iff_audio_start (events : list Event) h :
  completed_utterance h events ->
  let log := snd (run_raw events h) in
  count is_AudioStop log = count is_AudioStart log /\
  count is_AudioStart log <= 1.
Proof.
  intros U log.
  assert (exists h' l, run_raw events h = (h', l) /\
            framed Silent l = Some (phase_of (_audio_started h')) /\
            count is_AudioStop l = Nat.b2n (_audio_started h'))
    as (h' & l & E & F & C).
  { destruct U as [text voice St | voice mids Ns M].
    - apply one_shot_framed, St.
    - destruct (span_framed voice mids Stopped h Ns M) as (h' & l & E & F & C).
      exists h', l. split; [exact E|]. split; [exact F | apply C; reflexivity]. }
  subst log. rewrite E. simpl. apply framed_starts in F.
  destruct (_audio_started h'); simpl in *; lia.
Qed.

(** C8. A flush whose synthesis succeeds writes [AudioStart] first when the
    audio-started flag is not yet set, then one [AudioChunk] for each slice
    of the PCM buffer; the slices laid end to end are the buffer, slice [k]
    is the 2048 bytes at offset [k * 2048] (fewer at the end of the buffer),
    no slice is empty and all but the last hold 2048 bytes. In the log of an
    utterance, however it ends, [AudioStart] occurs at most once, it occurs
    exactly when some engine call returned audio, and every [AudioChunk]
    has [AudioStart] before it. *)
Theorem audio_framing :
  (forall h (pcm_bytes : list byte) (rate : Z),
      let text := PyStr.strip (_sentence_buffer h) in
      PyStr.truthy text = true ->
      synthesize (engine h) text (voice_name h) (_current_language h)
        = Some (pcm_bytes, rate) ->
      snd (_flush_buffer h) =
        Engine text (voice_name h) (_current_language h)
          (Some (pcm_bytes, rate))
        :: (if _audio_started h then [] else [Write (AudioStart rate 2 1)])
        ++ map (fun audio => Write (AudioChunk audio rate 2 1))
             (pcm_slices pcm_bytes) /\
      _audio_started (snd (fst (_flush_buffer h))) = true /\
      concat (pcm_slices pcm_bytes) = pcm_bytes /\
      (forall k, k < length (pcm_slices pcm_bytes) ->
         nth k (pcm_slices pcm_bytes) []
           = firstn 2048 (skipn (k * 2048) pcm_bytes) /\
         1 <= length (nth k (pcm_slices pcm_bytes) []) <= 2048) /\
      (forall k, S k < length (pcm_slices pcm_bytes) ->
         length (nth k (pcm_slices pcm_bytes) []) = 2048)) /\
  (forall h (events : list Event),
      utterance h events ->
      let log := snd (run_raw events h) in
      count is_AudioStart log <= 1 /\
      (count is_AudioStart log = 1 <-> existsb is_audio_result log = true) /\
      (forall l1 a l2, log = l1 ++ a :: l2 -> is_AudioChunk a = true ->
                       existsb is_AudioStart l1 = true)).
Proof.
  split.
  - intros h pcm rate text T E. rewrite (flush_audio h pcm rate T E).
    cbn [snd fst _audio_started set_audio_started].
    split; [|split; [reflexivity|split; [apply pcm_slices_concat|split]]].
    + unfold audio_chunks. rewrite map_map. reflexivity.
    + intros k Hk. destruct (pcm_slices_nth pcm k Hk) as [E' _].
      split; [exact E'|]. apply (pcm_slices_length pcm k Hk).
    + apply pcm_slices_full.
  - intros h events U log.
    destruct (utterance_framed events h U) as (h' & l & E & F).
    subst log. rewrite E. simpl. split; [|split].
    + apply framed_starts in F. destruct (_audio_started h'); simpl in *; lia.
    + pose proof (framed_starts _ _ _ F) as Cs.
      destruct (_audio_started h') eqn:A; simpl in *.
      * split; [intros _|lia].
        apply (framed_leaves_silent _ _ F). discriminate.
      * apply framed_stays_silent in F as [_ ->].
        split; [lia | discriminate].
    + intros l1 a l2 -> C.
      destruct (framed_chunk_after_start _ _ _ _ _ F C); [discriminate|auto].
Qed.

Lemma run_raw_keeps_voice (events : list Event) :
  forall h, forallb no_override events = true ->
    _current_voice (fst (run_raw events h)) = _current_voice h /\
    _current_language (fst (run_raw events h)) = _current_language h.
Proof.
  induction events as [|event rest IH]; intros h N; [simpl; auto|].
  simpl in N. apply andb_true_iff in N as [Ne Nr].
  destruct (handle_event_returns event h) as (h1 & log1 & E & _ & _ & K).
  destruct (K Ne) as [Kv Kl].
  rewrite (run_raw_cons _ _ _ _ _ E).
  destruct (IH h1 Nr) as [Iv Il].
  destruct (run_raw rest h1) as [h2 log2]. simpl in *. split; congruence.
Qed.

(** C10. A one-shot [Synthesize] received while streaming leaves the
    session's current voice and language as they were, whatever voice and
    language it carries; one accepted while idle records the non-empty
    voice name and language it carries, and they stay in force through the
    events that follow as long as none of them carries a voice name or a
    language. *)
Theorem synthesize_overrides (text : option string) (voice : option VoiceData) h :
  (_is_streaming h = true ->
   let h' := snd (fst (handle_event (Synthesize text voice) h)) in
   _current_voice h' = _current_voice h /\
   _current_language h' = _current_language h) /\
  (_is_streaming h = false ->
   forall (t name lang : string) (rest : list Event),
     text = Some t ->
     voice = Some {| v_name := Some name; v_language := Some lang |} ->
     name <> "" -> lang <> "" ->
     forallb no_override rest = true ->
     let h' := fst (run_raw (Synthesize text voice :: rest) h) in
     _current_voice h' = Some name /\ _current_language h' = lang).
Proof.
  split.
  - intros St. rewrite (handle_synthesize_streaming text voice h St). auto.
  - intros St t name lang rest -> -> Nn Nl N.
    destruct (full_framed t
                (recorded (Some {| v_name := Some name;
                                   v_language := Some lang |}) h))
      as (h1 & log1 & E & (_ & _ & _ & Sv & Sl) & _).
    rewrite <- (handle_synthesize_idle _ _ h St) in E.
    rewrite (run_raw_cons _ _ _ _ _ E).
    destruct (run_raw_keeps_voice rest h1 N) as [Kv Kl].
    destruct (run_raw rest h1) as [h2 log2]. simpl in *.
    apply PyStrFacts.truthy_true in Nn, Nl.
    rewrite Nn in Sv. rewrite Nl in Sl. split; congruence.
Qed.

End UtteranceClaims.

(** ** The claims on concrete runs *)

(** C1, counterexample. With the catalog [F1, M1] and the unknown voice
    ["zz"] requested, a configured default voice ["M1"] would be the voice by
    the specification's order; the handler calls the engine with ["F1"]. *)
Lemma configured_default_voice_unused :
  spec_voice_id (_current_voice Demo.unknown_voice) (Some "M1")
    (available_voices (engine Demo.unknown_voice)) = Some "M1" /\
  (exists result rest,
      snd (_flush_buffer Demo.unknown_voice)
      = Engine "Hello." "F1" "en" result :: rest) /\
  Some (voice_name Demo.unknown_voice)
  <> spec_voice_id (_current_voice Demo.unknown_voice) (Some "M1")
       (available_voices (engine Demo.unknown_voice)).
Proof.
  split; [reflexivity|]. split; [|discriminate].
  eexists _, _. vm_compute. reflexivity.
Qed.

Lemma flush_voice_resolution_witness :
  PyStr.truthy (PyStr.strip (_sentence_buffer Demo.greeting)) = true /\
  voice_name Demo.greeting = "M1".
Proof.
  split; [reflexivity|].
  destruct (flush_voice_resolution Demo.greeting eq_refl) as (_ & Requested & _).
  apply Requested; [reflexivity | discriminate | simpl; auto].
Defined.

(** C2, counterexample. On a server started with [--language ko], a request
    in the unsupported language ["xx"] reaches the model as ["en"], not as
    the configured ["ko"]. *)
Lemma unsupported_language_not_configured_default :
  PyStr.mem (PyStr.lower (PyStr.prefix 2 "xx")) supported_langs = false /\
  spec_language (language Demo.korean_args) "xx" = "ko" /\
  short_lang "xx" <> spec_language (language Demo.korean_args) "xx" /\
  snd (handle_event
         (Synthesize (Some "Hi.")
            (Some {| v_name := None; v_language := Some "xx" |}))
         Demo.korean_handler)
  = [Engine "Hi." "F1" "xx" (Some (list_byte_of_string "en", 44100%Z));
     Write (AudioStart 44100 2 1);
     Write (AudioChunk (list_byte_of_string "en") 44100 2 1);
     Write AudioStop].
Proof.
  split; [reflexivity|]. split; [reflexivity|]. split; [discriminate|].
  vm_compute. reflexivity.
Qed.

Lemma synthesize_language_fallback_witness :
  tts Demo.echo_engine = Some Demo.echo_model /\
  styles_dir Demo.echo_engine = Some "voice_styles" /\
  short_lang "EN-us" = "en" /\
  synthesize Demo.echo_engine "Hi." "F1" "EN-us"
  = Some (list_byte_of_string "en", 44100%Z).
Proof.
  split; [reflexivity|]. split; [reflexivity|].
  destruct (synthesize_language_fallback Demo.echo_engine Demo.echo_model
              "voice_styles" "Hi." "F1" "EN-us" eq_refl eq_refl)
    as (Call & Short & _).
  split; [exact Short | exact Call].
Defined.

(** C3, counterexample. A stream that has produced audio and then fails on a
    chunk without text, or is interrupted by a new [SynthesizeStart] (even
    when the new stream is stopped at once), has sent one [AudioStart] and no
    [AudioStop]. *)
Lemma audio_left_open :
  (utterance Demo.handler (Demo.open_stream ++ closing Faulted) /\
   let log := snd (run_raw (Demo.open_stream ++ closing Faulted) Demo.handler) in
   count is_AudioStart log = 1 /\ count is_AudioStop log = 0) /\
  (utterance Demo.handler (Demo.open_stream ++ closing StillOpen) /\
   let log := snd (run_raw (Demo.open_stream
                            ++ [SynthesizeStart None; SynthesizeStop])
                     Demo.handler) in
   count is_AudioStart log = 1 /\ count is_AudioStop log = 0).
Proof.
  split; (split;
    [ apply (span _ None
               [SynthesizeChunk
                  (Some "Good morning everyone, how are you today? I am fine.")]);
      reflexivity
    | vm_compute; auto ]).
Qed.

Lemma audio_stop_iff_audio_start_witness :
  completed_utterance Demo.handler Demo.short_stream /\
  let log := snd (run_raw Demo.short_stream Demo.handler) in
  count is_AudioStop log = count is_AudioStart log /\
  count is_AudioStart log <= 1.
Proof.
  assert (completed_utterance Demo.handler Demo.short_stream) as U
    by (apply (span_completed _ None
                 [SynthesizeChunk (Some "Hi "); SynthesizeChunk (Some "there.")]);
        reflexivity).
  split; [exact U|].
  exact (audio_stop_iff_audio_start Demo.short_stream Demo.handler U).
Defined.

Lemma synthesize_ignored_while_streaming_witness :
  _is_streaming Demo.streaming_handler = true /\
  handle_event (Synthesize (Some "Hello world.") None) Demo.streaming_handler
  = (Returned true, Demo.streaming_handler, []).
Proof.
  split; [reflexivity|].
  exact (synthesize_ignored_while_streaming Demo.streaming_handler
           (Some "Hello world.") None eq_refl).
Defined.

Lemma flush_contains_engine_fault_witness :
  PyStr.truthy (PyStr.strip (_sentence_buffer Demo.failing)) = true /\
  synthesize (engine Demo.failing) (PyStr.strip (_sentence_buffer Demo.failing))
    (voice_name Demo.failing) (_current_language Demo.failing) = None /\
  _flush_buffer Demo.failing
  = (Returned tt, set_sentence_buffer "" Demo.failing,
     [Engine "Boom." "F1" "en" None]).
Proof.
  split; [reflexivity|]. split; [reflexivity|].
  exact (proj1 (flush_contains_engine_fault Demo.failing eq_refl eq_refl)).
Defined.

Lemma unexpected_exception_reported_witness :
  handle_event_try (SynthesizeChunk None) Demo.streaming_handler
  = (Raised (KeyError "text"), Demo.streaming_handler, []) /\
  handle_event (SynthesizeChunk None) Demo.streaming_handler
  = (Returned true, set_is_streaming false Demo.streaming_handler,
     [Write (Error "'text'" "KeyError")]).
Proof.
  split; [reflexivity|].
  exact (proj1 (unexpected_exception_reported (SynthesizeChunk None)
                  Demo.streaming_handler (KeyError "text")
                  Demo.streaming_handler [] eq_refl)).
Defined.

Lemma synthesize_stop_sequence_witness :
  _is_streaming Demo.failing = true /\
  handle_event SynthesizeStop Demo.failing
  = (Returned true, set_is_streaming false (set_sentence_buffer "" Demo.failing),
     [Engine "Boom." "F1" "en" None; Write SynthesizeStopped]).
Proof.
  split; [reflexivity|].
  exact (proj1 (synthesize_stop_sequence Demo.failing eq_refl)).
Defined.

Lemma audio_framing_witness :
  utterance Demo.handler Demo.one_shot_request /\
  count is_AudioStart (snd (run_raw Demo.one_shot_request Demo.handler)) <= 1.
Proof.
  assert (utterance Demo.handler Demo.one_shot_request) as U
    by (apply one_shot; reflexivity).
  split; [exact U|].
  exact (proj1 (proj2 audio_framing Demo.handler Demo.one_shot_request U)).
Defined.

Lemma sentence_buffering_witness :
  PyStr.blank (_sentence_buffer Demo.white_buffer) = true /\
  PyStr.blank (_sentence_buffer Demo.padded_buffer) = false /\
  _flush_buffer Demo.white_buffer
  = (Returned tt, set_sentence_buffer "" Demo.white_buffer, []) /\
  (exists result rest,
      snd (_flush_buffer Demo.padded_buffer)
      = Engine "Hi there." "F1" "en" result :: rest) /\
  _process_sentence " Hello. " Demo.short_buffer
  = (Returned tt, set_sentence_buffer "Hi. Hello." Demo.short_buffer, []) /\
  _process_sentence (String "009" "  ") Demo.short_buffer
  = (Returned tt, Demo.short_buffer, []) /\
  _process_sentence "  How are you?  " Demo.nearly_full
  = _flush_buffer
      (set_sentence_buffer "Hello world. How are you?" Demo.nearly_full) /\
  _process_sentence "1234567890123456789" Demo.handler
  = (Returned tt, set_sentence_buffer "1234567890123456789" Demo.handler, []) /\
  _process_sentence "12345678901234567890" Demo.handler
  = _flush_buffer (set_sentence_buffer "12345678901234567890" Demo.handler) /\
  PyStr.is_space "009" = true /\ PyStr.is_space "a" = false.
Proof.
  split; [reflexivity|]. split; [reflexivity|].
  split; [exact (proj1 (proj2 (sentence_buffering Demo.white_buffer "")) eq_refl)|].
  split.
  { destruct (proj1 (proj2 (proj2 (sentence_buffering Demo.padded_buffer "")))
                eq_refl) as (lead & trail & h' & writes & E & _).
    rewrite E. eexists _, _. reflexivity. }
  split; [exact (proj1 (sentence_buffering Demo.short_buffer " Hello. "))|].
  split; [exact (proj1 (sentence_buffering Demo.short_buffer (String "009" "  ")))|].
  split; [exact (proj1 (sentence_buffering Demo.nearly_full "  How are you?  "))|].
  split; [exact (proj1 (sentence_buffering Demo.handler "1234567890123456789"))|].
  split; [exact (proj1 (sentence_buffering Demo.handler "12345678901234567890"))|].
  destruct (sentence_buffering Demo.handler "") as (_ & _ & _ & _ & Space).
  split.
  - apply Space. simpl. auto.
  - destruct (PyStr.is_space "a") eqn:A; [|reflexivity].
    apply Space in A. simpl in A. repeat (destruct A as [A|A]; [discriminate|]).
    destruct A.
Defined.

Lemma synthesize_overrides_witness :
  _is_streaming Demo.streaming_handler = true /\
  _is_streaming Demo.handler = false /\
  (let h' := snd (fst (handle_event
                         (Synthesize (Some "Hello.")
                            (Some {| v_name := Some "M1";
                                     v_language := Some "ko" |}))
                         Demo.streaming_handler)) in
   _current_voice h' = None /\ _current_language h' = "en") /\
  (let h' := fst (run_raw
                    (Synthesize (Some "Hello.")
                       (Some {| v_name := Some "M1"; v_language := Some "ko" |})
                     :: Demo.short_stream)
                    Demo.handler) in
   _current_voice h' = Some "M1" /\ _current_language h' = "ko").
Proof.
  split; [reflexivity|]. split; [reflexivity|]. split.
  - exact (proj1 (synthesize_overrides (Some "Hello.")
                    (Some {| v_name := Some "M1"; v_language := Some "ko" |})
                    Demo.streaming_handler) eq_refl).
  - apply (proj2 (synthesize_overrides (Some "Hello.")
                    (Some {| v_name := Some "M1"; v_language := Some "ko" |})
                    Demo.handler) eq_refl "Hello." "M1" "ko" Demo.short_stream);
      try reflexivity; discriminate.
Defined.

(** * Further properties of the handler *)

(** ** The shape of a log *)

Section LogShape.
Context {D : Type} `{SentenceBoundaryDetector D}.
Implicit Types h : Handler D.

Lemma flush_logs_app (eng : SupertonicEngine) (l1 l2 : list Action) :
  flush_logs D eng l1 -> flush_logs D eng l2 -> flush_logs D eng (l1 ++ l2).
Proof.
  induction 1 as [|h rest E _ IH]; intros F2; [exact F2|].
  rewrite <- app_assoc. apply flush_logs_cons; auto.
Qed.

Lemma flush_logs_one h : flush_logs D (engine h) (snd (_flush_buffer h)).
Proof.
  rewrite <- (app_nil_r (snd (_flush_buffer h))).
  apply flush_logs_cons; [reflexivity | apply flush_logs_nil].
Qed.

Lemma steady_engine h (o : Outcome unit) h' (log : list Action) :
  steady h (o, h', log) -> o = Returned tt /\ engine h' = engine h.
Proof.
  intros S. apply steady_inv in S as (-> & (_ & E & _) & _). auto.
Qed.

Lemma process_sentence_flush_logs (sentence : string) h :
  exists h' log,
    _process_sentence sentence h = (Returned tt, h', log) /\
    engine h' = engine h /\ flush_logs D (engine h) log.
Proof.
  pose proof (steady_process_sentence sentence h) as S.
  pose proof (process_sentence_run sentence h) as R. cbv zeta in R.
  destruct (_process_sentence sentence h) as [[o h'] log].
  destruct (steady_engine _ _ _ _ S) as [-> E].
  exists h', log. split; [reflexivity|]. split; [exact E|].
  destruct (PyStr.truthy (PyStr.strip sentence)).
  - match type of R with
    | context [(20 <=? ?n)%nat] => destruct (20 <=? n)%nat
    end.
    + match type of R with
      | _ = _flush_buffer ?x =>
          replace log with (snd (_flush_buffer x)) by (rewrite <- R; reflexivity);
          apply (flush_logs_one x)
      end.
    + injection R as _ ->. apply flush_logs_nil.
  - injection R as _ ->. apply flush_logs_nil.
Qed.

Lemma sentences_flush_logs (sentences : list string) :
  forall h, exists h' log,
    for_each sentences _process_sentence h = (Returned tt, h', log) /\
    engine h' = engine h /\ flush_logs D (engine h) log.
Proof.
  induction sentences as [|s r IH]; intros h.
  - exists h, []. split; [reflexivity|]. split; [reflexivity | apply flush_logs_nil].
  - destruct (process_sentence_flush_logs s h) as (h1 & log1 & E1 & G1 & F1).
    destruct (IH h1) as (h2 & log2 & E2 & G2 & F2).
    exists h2, (log1 ++ log2). cbn [for_each].
    rewrite (bind_returned _ _ _ _ _ _ E1), E2.
    split; [reflexivity|]. split; [congruence|].
    apply flush_logs_app; [exact F1 | rewrite <- G1; exact F2].
Qed.

Lemma flush_flush_logs h :
  exists h' log,
    _flush_buffer h = (Returned tt, h', log) /\
    engine h' = engine h /\ flush_logs D (engine h) log.
Proof.
  pose proof (steady_flush h) as S. pose proof (flush_logs_one h) as F.
  destruct (_flush_buffer h) as [[o h'] log].
  destruct (steady_engine _ _ _ _ S) as [-> E]. eauto.
Qed.

(** The log of an event: what its flushes write, then what the dispatch
    itself writes. *)
Lemma handle_event_log (event : Event) h :
  exists h' flushed tail,
    handle_event event h = (Returned true, h', flushed ++ tail) /\
    engine h' = engine h /\
    flush_logs D (engine h) flushed /\ tail_of event tail.
Proof.
  assert (forall e, tail_of e [] \/ e = Describe) as Quiet
    by (intros [|[?|] ?|?|[?|]| |?]; simpl; auto).
  assert (forall e h0, e <> Describe ->
            exists h' flushed tail,
              (Returned true, h0, @nil Action)
                = (Returned true, h', flushed ++ tail) /\
              engine h' = engine h0 /\
              flush_logs D (engine h0) flushed /\ tail_of e tail) as Nothing.
  { intros e h0 N. exists h0, [], []. split; [reflexivity|].
    split; [reflexivity|]. split; [apply flush_logs_nil|].
    destruct (Quiet e); [assumption | contradiction]. }
  destruct event as [|text voice|voice|text| |type].
  - exists h, [], [Write Info]. split; [reflexivity|].
    split; [reflexivity|]. split; [apply flush_logs_nil | reflexivity].
  - destruct (_is_streaming h) eqn:St.
    + rewrite (handle_synthesize_streaming text voice h St).
      apply Nothing. discriminate.
    + destruct text as [text|].
      * rewrite (handle_synthesize_idle text voice h St), synthesize_full_run.
        cbv zeta.
        destruct (add_chunk sbd_new text) as [sentences d0].
        destruct (finish d0) as [remaining d].
        match goal with
        | |- context [for_each ?l _process_sentence ?x] =>
            destruct (sentences_flush_logs l x) as (h1 & log1 & E1 & G1 & F1)
        end.
        rewrite E1.
        destruct (flush_flush_logs h1) as (h2 & log2 & E2 & G2 & F2).
        rewrite E2.
        exists h2, (log1 ++ log2),
          (if _audio_started h2 then [Write AudioStop] else []).
        rewrite app_assoc. split; [reflexivity|]. simpl in G1.
        assert (engine (recorded voice h) = engine h) as Er
          by (destruct voice as [[[[|]|] [[|]|]]|]; reflexivity).
        split; [congruence|]. split.
        -- apply flush_logs_app; [rewrite <- Er; exact F1|].
           replace (engine h) with (engine h1) by congruence. exact F2.
        -- destruct (_audio_started h2); simpl; auto.
      * rewrite (handle_synthesize_untexted voice h St).
        exists (set_is_streaming false h), [],
          [Write (Error (exn_text (KeyError "text")) (exn_code (KeyError "text")))].
        split; [reflexivity|]. split; [reflexivity|].
        split; [apply flush_logs_nil | simpl; auto].
  - destruct (no_streaming (cli_args h)) eqn:Ns.
    + rewrite (handle_start_disabled voice h Ns). apply Nothing. discriminate.
    + rewrite (handle_start voice h Ns).
      eexists _, [], []. split; [reflexivity|].
      split; [destruct voice as [[[[|]|] [[|]|]]|]; reflexivity|].
      split; [apply flush_logs_nil | reflexivity].
  - destruct (_is_streaming h) eqn:St.
    + destruct text as [text|].
      * rewrite (handle_chunk text h St).
        destruct (add_chunk (sbd h) text) as [sentences d].
        destruct (sentences_flush_logs sentences (set_sbd d h))
          as (h1 & log1 & E1 & G1 & F1).
        rewrite E1. exists h1, log1, []. rewrite app_nil_r.
        split; [reflexivity|]. split; [exact G1|].
        split; [exact F1 | reflexivity].
      * rewrite (handle_chunk_untexted h St).
        exists (set_is_streaming false h), [],
          [Write (Error (exn_text (KeyError "text")) (exn_code (KeyError "text")))].
        split; [reflexivity|]. split; [reflexivity|].
        split; [apply flush_logs_nil | simpl; auto].
    + rewrite (handle_chunk_idle text h St). apply Nothing. discriminate.
  - destruct (_is_streaming h) eqn:St.
    + rewrite (handle_stop h St).
      destruct (finish (sbd h)) as [remaining d].
      assert (exists h1 log1,
                 (if PyStr.truthy remaining
                  then _process_sentence remaining else ret tt) (set_sbd d h)
                 = (Returned tt, h1, log1) /\
                 engine h1 = engine h /\ flush_logs D (engine h) log1)
        as (h1 & log1 & E1 & G1 & F1).
      { destruct (PyStr.truthy remaining).
        - apply (process_sentence_flush_logs remaining (set_sbd d h)).
        - exists (set_sbd d h), []. split; [reflexivity|].
          split; [reflexivity | apply flush_logs_nil]. }
      rewrite E1.
      destruct (flush_flush_logs h1) as (h2 & log2 & E2 & G2 & F2).
      rewrite E2.
      exists (set_is_streaming false h2), (log1 ++ log2),
        ((if _audio_started h2 then [Write AudioStop] else [])
         ++ [Write SynthesizeStopped]).
      rewrite app_assoc. split; [reflexivity|].
      split; [simpl; congruence|]. split.
      * apply flush_logs_app; [exact F1|].
        replace (engine h) with (engine h1) by congruence. exact F2.
      * destruct (_audio_started h2); simpl; auto.
    + rewrite (handle_stop_idle h St). apply Nothing. discriminate.
  - rewrite handle_other. apply Nothing. discriminate.
Qed.

End LogShape.

(** ** What every log has *)

Section RunLogs.
Context {D : Type} `{SentenceBoundaryDetector D}.
Implicit Types h : Handler D.

(** The three ways a flush can go, by its log. *)
Lemma flush_log_cases h :
  let text := PyStr.strip (_sentence_buffer h) in
  let voice := voice_name h in
  let lang := _current_language h in
  snd (_flush_buffer h) = [] \/
  (synthesize (engine h) text voice lang = None /\
   snd (_flush_buffer h) = [Engine text voice lang None]) \/
  (exists pcm_bytes rate,
      synthesize (engine h) text voice lang = Some (pcm_bytes, rate) /\
      snd (_flush_buffer h) =
      Engine text voice lang (Some (pcm_bytes, rate))
      :: (if _audio_started h then [] else [Write (AudioStart rate 2 1)])
      ++ map Write (audio_chunks pcm_bytes rate)).
Proof.
  cbv zeta. destruct (PyStr.truthy (PyStr.strip (_sentence_buffer h))) eqn:T.
  - destruct (synthesize (engine h) (PyStr.strip (_sentence_buffer h))
                (voice_name h) (_current_language h)) as [[pcm rate]|] eqn:E.
    + right. right. exists pcm, rate. split; [reflexivity|].
      rewrite (flush_audio h pcm rate T E). reflexivity.
    + right. left. split; [reflexivity|].
      rewrite (flush_fault h T E). reflexivity.
  - left. rewrite (flush_blank h T). reflexivity.
Qed.

Lemma count_chunks_zero (f : Action -> bool) (pcm_bytes : list byte) (rate : Z) :
  (forall audio r w c, f (Write (AudioChunk audio r w c)) = false) ->
  count f (map Write (audio_chunks pcm_bytes rate)) = 0.
Proof.
  intros F. unfold audio_chunks, count.
  induction (pcm_slices pcm_bytes) as [|a l IH]; simpl; auto.
  rewrite F. exact IH.
Qed.

(** A flush writes nothing but [AudioStart] and [AudioChunk]. *)
Lemma flush_count_zero (f : Action -> bool) h :
  (forall t v l r, f (Engine t v l r) = false) ->
  (forall r w c, f (Write (AudioStart r w c)) = false) ->
  (forall audio r w c, f (Write (AudioChunk audio r w c)) = false) ->
  count f (snd (_flush_buffer h)) = 0.
Proof.
  intros Fe Fs Fc.
  destruct (flush_log_cases h) as [-> | [[_ ->] | (pcm & rate & _ & ->)]].
  - reflexivity.
  - unfold count. simpl. rewrite Fe. reflexivity.
  - change (?a :: ?l) with ([a] ++ l).
    rewrite !count_app, (count_chunks_zero f pcm rate Fc).
    unfold count. simpl. rewrite Fe.
    destruct (_audio_started h); simpl; rewrite ?Fs; reflexivity.
Qed.

(** A property of logs that flushes have and that survives concatenation
    holds of the log of every run, once it holds of what the dispatch itself
    writes for the events of the run. *)
Lemma run_raw_log_all (eng : SupertonicEngine) (P : list Action -> Prop)
    (allowed : Event -> bool) :
  P [] -> (forall a b, P a -> P b -> P (a ++ b)) ->
  (forall h, engine h = eng -> P (snd (_flush_buffer h))) ->
  (forall e tail, allowed e = true -> tail_of e tail -> P tail) ->
  forall events h, engine h = eng -> forallb allowed events = true ->
    P (snd (run_raw events h)).
Proof.
  intros Pnil Papp Pflush Ptail.
  assert (forall l, flush_logs D eng l -> P l) as Pflushed
    by (induction 1; auto).
  induction events as [|event rest IH]; intros h E A; [exact Pnil|].
  simpl in A. apply andb_true_iff in A as [Ae Ar].
  destruct (handle_event_log event h) as (h1 & L & T & Eh & Ee & F & Tl).
  rewrite (run_raw_cons _ _ _ _ _ Eh).
  specialize (IH h1 ltac:(congruence) Ar).
  destruct (run_raw rest h1) as [h2 log2]. simpl in *.
  rewrite E in F. apply Papp; [apply Papp|]; eauto.
Qed.

(** Of a kind of action that flushes never write, an event's log holds as
    many as what the dispatch itself writes. *)
Lemma handle_event_count (f : Action -> bool) (event : Event) h :
  (forall h0 : Handler D, count f (snd (_flush_buffer h0)) = 0) ->
  exists h' log tail,
    handle_event event h = (Returned true, h', log) /\
    tail_of event tail /\ count f log = count f tail.
Proof.
  intros Fflush.
  destruct (handle_event_log event h) as (h1 & L & T & Eh & _ & F & Tl).
  exists h1, (L ++ T), T. split; [exact Eh|]. split; [exact Tl|].
  rewrite count_app.
  assert (count f L = 0) as ->; [|reflexivity].
  clear - F Fflush. induction F as [|h0 r _ _ IH]; [reflexivity|].
  rewrite count_app, Fflush, IH. reflexivity.
Qed.

Lemma run_raw_count_le (f : Action -> bool) (g : Event -> bool) :
  (forall h0 : Handler D, count f (snd (_flush_buffer h0)) = 0) ->
  (forall e tail, tail_of e tail -> count f tail <= (if g e then 1 else 0)) ->
  forall events h,
    count f (snd (run_raw events h)) <= length (filter g events).
Proof.
  intros Fflush Ftail.
  induction events as [|event rest IH]; intros h; [reflexivity|].
  destruct (handle_event_count f event h Fflush) as (h1 & log & T & Eh & Tl & C).
  rewrite (run_raw_cons _ _ _ _ _ Eh).
  specialize (IH h1). destruct (run_raw rest h1) as [h2 log2].
  cbn [snd filter] in *. rewrite count_app, C.
  specialize (Ftail event T Tl). destruct (g event); cbn [length]; lia.
Qed.

Lemma run_raw_count_eq (f : Action -> bool) (g : Event -> bool) :
  (forall h0 : Handler D, count f (snd (_flush_buffer h0)) = 0) ->
  (forall e tail, tail_of e tail -> count f tail = (if g e then 1 else 0)) ->
  forall events h,
    count f (snd (run_raw events h)) = length (filter g events).
Proof.
  intros Fflush Ftail.
  induction events as [|event rest IH]; intros h; [reflexivity|].
  destruct (handle_event_count f event h Fflush) as (h1 & log & T & Eh & Tl & C).
  rewrite (run_raw_cons _ _ _ _ _ Eh).
  specialize (IH h1). destruct (run_raw rest h1) as [h2 log2].
  cbn [snd filter] in *. rewrite count_app, C.
  specialize (Ftail event T Tl). destruct (g event); cbn [length]; lia.
Qed.

End RunLogs.

(** ** Every run: counts, audio bytes, formats, voices *)

Section RunClaims.
Context {D : Type} `{SentenceBoundaryDetector D}.
Implicit Types h : Handler D.

(** X1. [handle_event] answers [True] to every event in every state, without
    raising, so the read loop is never ended by the handler; and it never
    replaces the engine or the command line settings. *)
Theorem handle_event_always_true (event : Event) h :
  fst (fst (handle_event event h)) = Returned true /\
  engine (snd (fst (handle_event event h))) = engine h /\
  cli_args (snd (fst (handle_event event h))) = cli_args h.
Proof.
  destruct (handle_event_returns event h) as (h' & log & E & C & G & _).
  rewrite E. simpl. auto.
Qed.

(** X2. However the events of a connection are interleaved, the handler
    writes exactly one [Info] for each [Describe] it receives, and none
    otherwise. *)
Theorem info_per_describe (events : list Event) h :
  count is_Info (snd (run_raw events h)) = length (filter is_Describe events).
Proof.
  apply run_raw_count_eq.
  - intros h0. apply flush_count_zero; reflexivity.
  - intros [|[?|] ?|?|[?|]| |?] tail Tl; simpl in Tl;
      repeat (destruct Tl as [Tl|Tl]); subst; reflexivity.
Qed.

(** X3. Over events with well-typed payloads (the values of [Event]), the
    handler writes at most one [Error] for each event that lacks its text
    and none for any other of them: a fault of the engine never shows as an
    [Error]. *)
Theorem errors_only_for_missing_text (events : list Event) h :
  count is_Error (snd (run_raw events h))
  <= length (filter (fun e => negb (has_text e)) events).
Proof.
  apply run_raw_count_le.
  - intros h0. apply flush_count_zero; reflexivity.
  - intros [|[?|] ?|?|[?|]| |?] tail Tl; simpl in Tl;
      repeat (destruct Tl as [Tl|Tl]); subst; simpl; unfold count; simpl; lia.
Qed.

(** X4. [SynthesizeStopped] is written at most once for each
    [SynthesizeStop] received and never for another event. *)
Theorem stopped_only_for_stop (events : list Event) h :
  count is_SynthesizeStopped (snd (run_raw events h))
  <= length (filter is_SynthesizeStop events).
Proof.
  apply run_raw_count_le.
  - intros h0. apply flush_count_zero; reflexivity.
  - intros [|[?|] ?|?|[?|]| |?] tail Tl; simpl in Tl;
      repeat (destruct Tl as [Tl|Tl]); subst; simpl; unfold count; simpl; lia.
Qed.

Lemma audio_sent_app (l1 l2 : list Action) :
  audio_sent (l1 ++ l2) = audio_sent l1 ++ audio_sent l2.
Proof.
  induction l1 as [|[[]|? ? ? ?] r IH]; simpl; auto.
  rewrite IH, app_assoc. reflexivity.
Qed.

Lemma audio_made_app (l1 l2 : list Action) :
  audio_made (l1 ++ l2) = audio_made l1 ++ audio_made l2.
Proof.
  induction l1 as [|[?|? ? ? [[? ?]|]] r IH]; simpl; auto.
  rewrite IH, app_assoc. reflexivity.
Qed.

Lemma audio_sent_chunks (pcm_bytes : list byte) (rate : Z) :
  audio_sent (map Write (audio_chunks pcm_bytes rate)) = pcm_bytes.
Proof.
  rewrite <- (pcm_slices_concat pcm_bytes) at 2. unfold audio_chunks.
  induction (pcm_slices pcm_bytes) as [|a l IH]; simpl; auto.
  rewrite IH. reflexivity.
Qed.

Lemma audio_made_writes (l : list OutEvent) : audio_made (map Write l) = [].
Proof. induction l; simpl; auto. Qed.

(** X5. In the log of every run the audio bytes written to the client, in
    order, are exactly the bytes the engine returned, in order: chunking
    neither drops, repeats nor reorders audio. *)
Theorem audio_bytes_conserved (events : list Event) h :
  audio_sent (snd (run_raw events h)) = audio_made (snd (run_raw events h)).
Proof.
  apply (run_raw_log_all (engine h)
           (fun log => audio_sent log = audio_made log) (fun _ => true)).
  - reflexivity.
  - intros a b Ea Eb. rewrite audio_sent_app, audio_made_app, Ea, Eb. reflexivity.
  - intros h0 _.
    destruct (flush_log_cases h0) as [-> | [[_ ->] | (pcm & rate & _ & ->)]];
      try reflexivity.
    cbn [audio_sent audio_made].
    rewrite audio_sent_app, audio_made_app, audio_sent_chunks, audio_made_writes.
    destruct (_audio_started h0); simpl; rewrite ?app_nil_r; reflexivity.
  - intros [|[?|] ?|?|[?|]| |?] tail _ Tl; simpl in Tl;
      repeat (destruct Tl as [Tl|Tl]); subst; reflexivity.
  - reflexivity.
  - clear. induction events; simpl; auto.
Qed.

Lemma synthesize_rate (eng : SupertonicEngine) (text voice lang : string)
    (pcm_bytes : list byte) (rate : Z) :
  synthesize eng text voice lang = Some (pcm_bytes, rate) ->
  rate = sample_rate eng.
Proof.
  unfold synthesize. destruct (tts eng) as [model|]; [|discriminate].
  destruct (styles_dir eng) as [dir|]; [|discriminate].
  destruct (model text (short_lang lang) (style_path dir voice));
    [|discriminate].
  intros E. injection E as _ <-. reflexivity.
Qed.

Lemma pcm_slices_In (pcm_bytes audio : list byte) :
  In audio (pcm_slices pcm_bytes) -> 1 <= length audio <= chunk_size.
Proof.
  intros I. apply (In_nth _ _ []) in I as (k & Hk & <-).
  apply pcm_slices_length, Hk.
Qed.

Lemma well_formed_chunks (pcm_bytes : list byte) (rate : Z) :
  forallb (well_formed_audio rate) (map Write (audio_chunks pcm_bytes rate))
  = true.
Proof.
  apply forallb_forall. intros a I.
  apply in_map_iff in I as (e & <- & I). unfold audio_chunks in I.
  apply in_map_iff in I as (audio & <- & I).
  apply pcm_slices_In in I as [Lo Hi]. unfold well_formed_audio.
  rewrite Z.eqb_refl. cbn [Z.eqb Pos.eqb andb].
  apply andb_true_iff. split; apply Nat.leb_le; assumption.
Qed.

(** X6. Every [AudioStart] and every [AudioChunk] of a run carries the
    sample rate of the engine, a width of 2 and 1 channel, and every
    [AudioChunk] holds between 1 and 2048 bytes. *)
Theorem audio_events_well_formed (events : list Event) h :
  forallb (well_formed_audio (sample_rate (engine h))) (snd (run_raw events h))
  = true.
Proof.
  apply (run_raw_log_all (engine h)
           (fun log => forallb (well_formed_audio (sample_rate (engine h))) log
                       = true) (fun _ => true)).
  - reflexivity.
  - intros a b Ea Eb. rewrite forallb_app, Ea, Eb. reflexivity.
  - intros h0 E0.
    destruct (flush_log_cases h0) as [-> | [[_ ->] | (pcm & rate & S & ->)]];
      try reflexivity.
    apply synthesize_rate in S. rewrite E0 in S. subst rate.
    cbn [forallb well_formed_audio]. rewrite forallb_app, well_formed_chunks.
    destruct (_audio_started h0); simpl; rewrite ?Z.eqb_refl; reflexivity.
  - intros [|[?|] ?|?|[?|]| |?] tail _ Tl; simpl in Tl;
      repeat (destruct Tl as [Tl|Tl]); subst; reflexivity.
  - reflexivity.
  - clear. induction events; simpl; auto.
Qed.

Lemma voice_name_in_catalog h :
  available_voices (engine h) <> [] ->
  PyStr.mem (voice_name h) (available_voices (engine h)) = true.
Proof.
  intros N. unfold voice_name.
  destruct (available_voices (engine h)) as [|first rest] eqn:C; [congruence|].
  assert (PyStr.mem first (first :: rest) = true) as F
    by (simpl; rewrite String.eqb_refl; reflexivity).
  destruct (_current_voice h) as [v|]; [|exact F].
  destruct (PyStr.truthy v && PyStr.mem v (first :: rest)) eqn:A; [|exact F].
  apply andb_true_iff in A as [_ A]. exact A.
Qed.

(** X7. With a catalog that is not empty, every call of the engine in every
    run names a voice of the catalog, whatever voices the events ask for. *)
Theorem engine_called_with_catalog_voice (events : list Event) h :
  available_voices (engine h) <> [] ->
  forallb (calls_catalog_voice (available_voices (engine h)))
    (snd (run_raw events h)) = true.
Proof.
  intros N.
  apply (run_raw_log_all (engine h)
           (fun log => forallb (calls_catalog_voice
                                  (available_voices (engine h))) log = true)
           (fun _ => true)).
  - reflexivity.
  - intros a b Ea Eb. rewrite forallb_app, Ea, Eb. reflexivity.
  - intros h0 E0.
    assert (PyStr.mem (voice_name h0) (available_voices (engine h)) = true) as V
      by (rewrite <- E0; apply voice_name_in_catalog; rewrite E0; exact N).
    destruct (flush_log_cases h0) as [-> | [[_ ->] | (pcm & rate & _ & ->)]];
      try reflexivity.
    + simpl. rewrite V. reflexivity.
    + cbn [forallb calls_catalog_voice]. rewrite V, forallb_app.
      assert (forall l, forallb (calls_catalog_voice
                                   (available_voices (engine h)))
                          (map Write l) = true) as W
        by (induction l; simpl; auto).
      rewrite W. destruct (_audio_started h0); reflexivity.
  - intros [|[?|] ?|?|[?|]| |?] tail _ Tl; simpl in Tl;
      repeat (destruct Tl as [Tl|Tl]); subst; reflexivity.
  - reflexivity.
  - clear. induction events; simpl; auto.
Qed.

Lemma synthesize_unable (eng : SupertonicEngine) (text voice lang : string) :
  tts eng = None \/ styles_dir eng = None ->
  synthesize eng text voice lang = None.
Proof.
  unfold synthesize. intros [-> | ->]; [reflexivity|].
  destruct (tts eng); reflexivity.
Qed.

(** X8. With an engine that was not loaded, or that [load] left without a
    styles folder, every synthesis raises inside the flush: no run ever
    writes [AudioStart] or [AudioChunk], and by X3 no [Error] tells the
    client so. *)
Theorem engine_without_styles_is_mute (events : list Event) h :
  tts (engine h) = None \/ styles_dir (engine h) = None ->
  count is_AudioStart (snd (run_raw events h)) = 0 /\
  count is_AudioChunk (snd (run_raw events h)) = 0.
Proof.
  intros U.
  apply (run_raw_log_all (engine h)
           (fun log => count is_AudioStart log = 0 /\ count is_AudioChunk log = 0)
           (fun _ => true)).
  - auto.
  - intros a b [Sa Ca] [Sb Cb]. rewrite !count_app. lia.
  - intros h0 E0.
    destruct (flush_log_cases h0) as [-> | [[_ ->] | (pcm & rate & S & _)]];
      auto.
    rewrite E0, synthesize_unable in S by exact U. discriminate.
  - intros [|[?|] ?|?|[?|]| |?] tail _ Tl; simpl in Tl;
      repeat (destruct Tl as [Tl|Tl]); subst; auto.
  - reflexivity.
  - clear. induction events; simpl; auto.
Qed.

End RunClaims.

(** ** Every run: the state of the session *)

Section StateClaims.
Context {D : Type} `{SentenceBoundaryDetector D}.
Implicit Types h : Handler D.

Lemma recorded_frame voice h :
  cli_args (recorded voice h) = cli_args h /\
  engine (recorded voice h) = engine h /\
  sbd (recorded voice h) = sbd h /\
  _is_streaming (recorded voice h) = _is_streaming h /\
  _audio_started (recorded voice h) = _audio_started h /\
  _sentence_buffer (recorded voice h) = _sentence_buffer h.
Proof. unfold recorded. simpl. auto 10. Qed.

(** With streaming disabled an idle handler stays idle. *)
Lemma handle_event_one_shot_only (event : Event) h :
  no_streaming (cli_args h) = true -> _is_streaming h = false ->
  exists h' log,
    handle_event event h = (Returned true, h', log) /\
    no_streaming (cli_args h') = true /\ _is_streaming h' = false /\
    count is_SynthesizeStopped log = 0.
Proof.
  intros Ns St.
  destruct (handle_event_count is_SynthesizeStopped event h
              ltac:(intros h0; apply flush_count_zero; reflexivity))
    as (h' & log & T & E & Tl & C).
  destruct (handle_event_returns event h) as (h'' & log' & E' & Ca & _).
  rewrite E in E'. injection E' as <- <-.
  exists h', log. split; [exact E|]. split; [congruence|].
  destruct event as [|text voice|voice|text| |type].
  - rewrite handle_describe in E. injection E as <- <-. auto.
  - destruct text as [text|].
    + rewrite (handle_synthesize_idle text voice h St) in E.
      destruct (full_framed text (recorded voice h))
        as (h1 & log1 & E1 & (_ & _ & S1 & _) & _).
      rewrite E1 in E. injection E as <- <-.
      destruct (recorded_frame voice h) as (_ & _ & _ & Sr & _).
      split; [congruence|]. rewrite C. simpl in Tl.
      destruct Tl as [-> | ->]; reflexivity.
    + rewrite (handle_synthesize_untexted voice h St) in E.
      injection E as <- <-. auto.
  - rewrite (handle_start_disabled voice h Ns) in E. injection E as <- <-. auto.
  - rewrite (handle_chunk_idle text h St) in E. injection E as <- <-. auto.
  - rewrite (handle_stop_idle h St) in E. injection E as <- <-. auto.
  - rewrite handle_other in E. injection E as <- <-. auto.
Qed.

(** X9. On a server started with [--no-streaming], a handler that is not
    streaming never starts to: whatever events arrive, the streaming flag
    stays clear and no [SynthesizeStopped] is ever written. *)
Theorem no_streaming_never_streams (events : list Event) :
  forall h, no_streaming (cli_args h) = true -> _is_streaming h = false ->
    _is_streaming (fst (run_raw events h)) = false /\
    count is_SynthesizeStopped (snd (run_raw events h)) = 0.
Proof.
  induction events as [|event rest IH]; intros h Ns St; [auto|].
  destruct (handle_event_one_shot_only event h Ns St)
    as (h1 & log1 & E & Ns1 & St1 & C1).
  rewrite (run_raw_cons _ _ _ _ _ E).
  destruct (IH h1 Ns1 St1) as [S2 C2].
  destruct (run_raw rest h1) as [h2 log2]. simpl in *.
  rewrite count_app, C1, C2. auto.
Qed.

Lemma flush_clears_buffer h :
  _sentence_buffer (snd (fst (_flush_buffer h))) = "".
Proof.
  destruct (PyStr.truthy (PyStr.strip (_sentence_buffer h))) eqn:T.
  - destruct (flush_dispatch h T) as (h' & writes & E & B). rewrite E. exact B.
  - rewrite (flush_blank h T). reflexivity.
Qed.

Lemma process_sentence_bound (sentence : string) h :
  String.length (_sentence_buffer h) < 20 ->
  String.length (_sentence_buffer (snd (fst (_process_sentence sentence h)))) < 20.
Proof.
  intros B. rewrite process_sentence_run. cbv zeta.
  destruct (PyStr.truthy (PyStr.strip sentence)); [|exact B].
  match goal with
  | |- context [(20 <=? ?n)%nat] => destruct (20 <=? n)%nat eqn:L
  end.
  - rewrite flush_clears_buffer. simpl. lia.
  - apply Nat.leb_gt in L. exact L.
Qed.

Lemma sentences_bound (sentences : list string) :
  forall h, String.length (_sentence_buffer h) < 20 ->
    String.length
      (_sentence_buffer (snd (fst (for_each sentences _process_sentence h)))) < 20.
Proof.
  induction sentences as [|s r IH]; intros h B; [exact B|].
  pose proof (process_sentence_bound s h B) as B1.
  destruct (steady_process_sentence s h) as (h1 & log1 & E1 & _).
  rewrite E1 in B1. cbn [for_each].
  rewrite (bind_returned _ _ _ _ _ _ E1).
  specialize (IH h1 B1).
  destruct (for_each r _process_sentence h1) as [[o2 h2] log2]. exact IH.
Qed.

Lemma handle_event_bound (event : Event) h :
  String.length (_sentence_buffer h) < 20 ->
  String.length (_sentence_buffer (snd (fst (handle_event event h)))) < 20.
Proof.
  intros B.
  assert (forall h0 : Handler D,
             String.length (_sentence_buffer (snd (fst (_flush_buffer h0)))) < 20)
    as Flushed by (intros h0; rewrite flush_clears_buffer; simpl; lia).
  destruct event as [|text voice|voice|text| |type].
  - exact B.
  - destruct (_is_streaming h) eqn:St.
    + rewrite (handle_synthesize_streaming text voice h St). exact B.
    + destruct text as [text|].
      * rewrite (handle_synthesize_idle text voice h St), synthesize_full_run.
        cbv zeta.
        destruct (add_chunk sbd_new text) as [sentences d0].
        destruct (finish d0) as [remaining d].
        match goal with
        | |- context [for_each ?l _process_sentence ?x] =>
            destruct (for_each l _process_sentence x) as [[o1 h1] log1]
        end.
        specialize (Flushed h1).
        destruct (_flush_buffer h1) as [[o2 h2] log2]. exact Flushed.
      * rewrite (handle_synthesize_untexted voice h St). exact B.
  - destruct (no_streaming (cli_args h)) eqn:Ns.
    + rewrite (handle_start_disabled voice h Ns). exact B.
    + rewrite (handle_start voice h Ns). simpl. lia.
  - destruct (_is_streaming h) eqn:St.
    + destruct text as [text|].
      * rewrite (handle_chunk text h St).
        destruct (add_chunk (sbd h) text) as [sentences d].
        pose proof (sentences_bound sentences (set_sbd d h) B) as B1.
        destruct (for_each sentences _process_sentence (set_sbd d h))
          as [[o1 h1] log1]. exact B1.
      * rewrite (handle_chunk_untexted h St). exact B.
    + rewrite (handle_chunk_idle text h St). exact B.
  - destruct (_is_streaming h) eqn:St.
    + rewrite (handle_stop h St).
      destruct (finish (sbd h)) as [remaining d].
      match goal with
      | |- context [?m (set_sbd d h)] =>
          destruct (m (set_sbd d h)) as [[o1 h1] log1]
      end.
      specialize (Flushed h1).
      destruct (_flush_buffer h1) as [[o2 h2] log2]. exact Flushed.
    + rewrite (handle_stop_idle h St). exact B.
  - exact B.
Qed.

(** X10. Between events the sentence buffer always holds fewer than 20
    characters: a handler that starts below the flush threshold is below it
    after every run. *)
Theorem buffer_below_threshold (events : list Event) :
  forall h, String.length (_sentence_buffer h) < 20 ->
    String.length (_sentence_buffer (fst (run_raw events h))) < 20.
Proof.
  induction events as [|event rest IH]; intros h B; [exact B|].
  pose proof (handle_event_bound event h B) as B1.
  destruct (handle_event_returns event h) as (h1 & log1 & E & _).
  rewrite E in B1. rewrite (run_raw_cons _ _ _ _ _ E).
  specialize (IH h1 B1). destruct (run_raw rest h1) as [h2 log2]. exact IH.
Qed.

(** X11. An utterance that runs to its end leaves the sentence buffer empty:
    no text of a request is carried over into the next. *)
Theorem completed_utterance_empties_buffer (events : list Event) h :
  completed_utterance h events ->
  _sentence_buffer (fst (run_raw events h)) = "".
Proof.
  intros [text voice St | voice mids Ns M].
  - cbn [run_raw].
    rewrite (handle_synthesize_idle text voice h St), synthesize_full_run.
    cbv zeta.
    destruct (add_chunk sbd_new text) as [sentences d0].
    destruct (finish d0) as [remaining d].
    match goal with
    | |- context [for_each ?l _process_sentence ?x] =>
        destruct (for_each l _process_sentence x) as [[o1 h1] log1]
    end.
    pose proof (flush_clears_buffer h1) as F.
    destruct (_flush_buffer h1) as [[o2 h2] log2]. exact F.
  - destruct (span_open voice mids h Ns M) as (h1 & log1 & E1 & St1 & _).
    rewrite app_comm_cons, run_raw_app, E1. cbn [run_raw].
    rewrite (handle_stop h1 St1).
    destruct (finish (sbd h1)) as [remaining d].
    match goal with
    | |- context [?m (set_sbd d h1)] =>
        destruct (m (set_sbd d h1)) as [[o2 h2] log2]
    end.
    pose proof (flush_clears_buffer h2) as F.
    destruct (_flush_buffer h2) as [[o3 h3] log3]. exact F.
Qed.

(** X12. What a request does depends on the session only through its
    settings, its engine, its voice and its language: a one-shot request
    accepted while idle, and any run that begins with an accepted
    [SynthesizeStart], give the same log and the same final state whatever
    the detector, the buffer and the audio flag held before. *)
Theorem request_forgets_leftovers h h' :
  cli_args h = cli_args h' -> engine h = engine h' ->
  _current_voice h = _current_voice h' ->
  _current_language h = _current_language h' ->
  (forall text voice,
      _is_streaming h = false -> _is_streaming h' = false ->
      handle_event (Synthesize (Some text) voice) h
      = handle_event (Synthesize (Some text) voice) h') /\
  (forall voice rest,
      no_streaming (cli_args h) = false ->
      run_raw (SynthesizeStart voice :: rest) h
      = run_raw (SynthesizeStart voice :: rest) h').
Proof.
  intros Ec Ee Ev El. split.
  - intros text voice St St'.
    rewrite (handle_synthesize_idle text voice h St),
      (handle_synthesize_idle text voice h' St'), !synthesize_full_run.
    replace (set_sbd sbd_new (set_sentence_buffer ""
               (set_audio_started false (recorded voice h))))
      with (set_sbd sbd_new (set_sentence_buffer ""
               (set_audio_started false (recorded voice h'))));
      [reflexivity|].
    destruct h, h'. unfold recorded. simpl in *. subst. reflexivity.
  - intros voice rest Ns.
    rewrite (run_raw_cons _ _ _ _ _ (handle_start voice h Ns)),
      (run_raw_cons _ _ _ _ _
         (handle_start voice h' ltac:(rewrite <- Ec; exact Ns))).
    replace (recorded voice (set_sentence_buffer "" (set_sbd sbd_new
               (set_audio_started false (set_is_streaming true h)))))
      with (recorded voice (set_sentence_buffer "" (set_sbd sbd_new
               (set_audio_started false (set_is_streaming true h')))));
      [reflexivity|].
    destruct h, h'. unfold recorded. simpl in *. subst. reflexivity.
Qed.

Lemma framed_flags (a b : bool) (log : list Action) :
  framed (phase_of a) log = Some (phase_of b) ->
  count is_AudioStart log + Nat.b2n a = Nat.b2n b.
Proof.
  intros F. apply framed_starts in F. destruct a, b; simpl in *; lia.
Qed.

(** Over one event, the [AudioStop] written and the audio an open stream
    still owes a stop for are covered by the [AudioStart] written and the
    audio owed before. *)
Lemma handle_event_balance (event : Event) h :
  exists h' log,
    handle_event event h = (Returned true, h', log) /\
    count is_AudioStop log + Nat.b2n (_is_streaming h' && _audio_started h')
    <= count is_AudioStart log + Nat.b2n (_is_streaming h && _audio_started h).
Proof.
  assert (forall h0 : Handler D,
             exists h' log, (Returned true, h0, @nil Action) = (Returned true, h', log) /\
               count is_AudioStop log
               + Nat.b2n (_is_streaming h' && _audio_started h')
               <= count is_AudioStart log
                  + Nat.b2n (_is_streaming h0 && _audio_started h0)) as Same
    by (intros h0; exists h0, []; split; [reflexivity | simpl; lia]).
  destruct event as [|text voice|voice|text| |type].
  - exists h, [Write Info]. split; [reflexivity | simpl; lia].
  - destruct (_is_streaming h) eqn:St.
    + rewrite (handle_synthesize_streaming text voice h St).
      destruct (Same h) as (h' & log & E & B). rewrite St in B. eauto.
    + destruct text as [text|].
      * rewrite (handle_synthesize_idle text voice h St).
        destruct (full_framed text (recorded voice h))
          as (h1 & log1 & E1 & (_ & _ & S1 & _) & F1 & C1 & _).
        destruct (recorded_frame voice h) as (_ & _ & _ & Sr & _).
        exists h1, log1. split; [exact E1|].
        apply (framed_flags false) in F1.
        rewrite C1, S1, Sr, St. simpl in *. lia.
      * rewrite (handle_synthesize_untexted voice h St).
        eexists _, _. split; [reflexivity | simpl; lia].
  - destruct (no_streaming (cli_args h)) eqn:Ns.
    + rewrite (handle_start_disabled voice h Ns). apply Same.
    + rewrite (handle_start voice h Ns).
      eexists _, _. split; [reflexivity | simpl; lia].
  - destruct (_is_streaming h) eqn:St.
    + destruct text as [text|].
      * destruct (chunk_steady text h St) as (h1 & log1 & E1 & S1).
        apply steady_inv in S1 as (_ & (_ & _ & Ss & _) & F1 & C1 & _).
        exists h1, log1. split; [exact E1|].
        apply framed_flags in F1. rewrite C1, Ss, St. simpl. lia.
      * rewrite (handle_chunk_untexted h St).
        eexists _, _. split; [reflexivity | simpl; lia].
    + rewrite (handle_chunk_idle text h St).
      destruct (Same h) as (h' & log & E & B). rewrite St in B. eauto.
  - destruct (_is_streaming h) eqn:St.
    + destruct (stop_framed h St) as (h1 & log1 & E1 & S1 & _ & F1 & C1 & _).
      exists h1, log1. split; [exact E1|].
      apply framed_flags in F1. rewrite C1, S1. simpl. lia.
    + rewrite (handle_stop_idle h St).
      destruct (Same h) as (h' & log & E & B). rewrite St in B. eauto.
  - rewrite handle_other. apply Same.
Qed.

Lemma run_raw_balance (events : list Event) :
  forall h,
    count is_AudioStop (snd (run_raw events h))
    + Nat.b2n (_is_streaming (fst (run_raw events h))
               && _audio_started (fst (run_raw events h)))
    <= count is_AudioStart (snd (run_raw events h))
       + Nat.b2n (_is_streaming h && _audio_started h).
Proof.
  induction events as [|event rest IH]; intros h; [simpl; lia|].
  destruct (handle_event_balance event h) as (h1 & log1 & E & B).
  rewrite (run_raw_cons _ _ _ _ _ E). specialize (IH h1).
  destruct (run_raw rest h1) as [h2 log2]. simpl in *.
  rewrite !count_app. lia.
Qed.

(** X13. Unless it starts inside a stream that has already announced audio,
    no run writes more [AudioStop] than [AudioStart]: on a new connection an
    [AudioStop] is never sent without an [AudioStart] before it. *)
Theorem audio_stop_never_unmatched (events : list Event) h :
  _is_streaming h && _audio_started h = false ->
  count is_AudioStop (snd (run_raw events h))
  <= count is_AudioStart (snd (run_raw events h)).
Proof.
  intros B. pose proof (run_raw_balance events h) as R.
  rewrite B in R. simpl in R. lia.
Qed.

End StateClaims.

(** ** The text that reaches the engine *)

Module JoinFacts.
Import PyStr.

Lemma append_assoc (a b c : string) : ((a ++ b) ++ c = a ++ (b ++ c))%string.
Proof. induction a as [|x r IH]; simpl; [reflexivity | rewrite IH; reflexivity]. Qed.

Lemma truthy_app (a b : string) : truthy a = true -> truthy (a ++ b) = true.
Proof. destruct a; simpl; intros T; [discriminate | reflexivity]. Qed.

Lemma concat_truthy (x : string) (l : list string) :
  truthy x = true -> truthy (String.concat " " (x :: l)) = true.
Proof.
  intros T. destruct l as [|y l]; [exact T|].
  cbn [String.concat]. apply truthy_app, T.
Qed.

(** [words_joined], one word at a time. *)
Lemma words_joined_cons (a : string) (l : list string) :
  words_joined (a :: l) =
  if truthy a
  then if truthy (words_joined l) then (a ++ " " ++ words_joined l)%string else a
  else words_joined l.
Proof.
  unfold words_joined. cbn [filter]. destruct (truthy a) eqn:Ta; [|reflexivity].
  destruct (filter truthy l) as [|x r] eqn:F; [reflexivity|].
  assert (truthy x = true) as Tx.
  { assert (In x (filter truthy l)) as I by (rewrite F; left; reflexivity).
    apply filter_In in I as [_ I]. exact I. }
  rewrite (concat_truthy x r Tx). reflexivity.
Qed.

Lemma words_joined_congr (a : string) (l1 l2 : list string) :
  words_joined l1 = words_joined l2 ->
  words_joined (a :: l1) = words_joined (a :: l2).
Proof. intros E. rewrite !words_joined_cons, E. reflexivity. Qed.

(** Appending a word to the buffer as [_process_sentence] does is joining
    it to the words before it. *)
Lemma words_joined_glue (buffer s : string) (l : list string) :
  truthy s = true ->
  words_joined ((if truthy buffer then buffer ++ " " ++ s else s)%string :: l)
  = words_joined (buffer :: s :: l).
Proof.
  intros Ts. rewrite (words_joined_cons buffer), (words_joined_cons s), Ts.
  destruct (truthy buffer) eqn:Tb; [|rewrite words_joined_cons, Ts; reflexivity].
  rewrite words_joined_cons, (truthy_app buffer _ Tb).
  destruct (truthy (words_joined l)) eqn:Tl.
  - rewrite (truthy_app s _ Ts), append_assoc. reflexivity.
  - rewrite Ts. reflexivity.
Qed.

Lemma lstrip_fixed (s : string) : head_is_space s = false -> lstrip s = s.
Proof. destruct s as [|c r]; simpl; [reflexivity | intros ->; reflexivity]. Qed.

Lemma rstrip_fixed (s : string) : last_is_space s = false -> rstrip s = s.
Proof.
  induction s as [|c r IH]; [reflexivity|].
  destruct r as [|c' r'].
  - simpl. intros ->. reflexivity.
  - intros L. cbn [last_is_space] in L. specialize (IH L).
    change (rstrip (String c (String c' r')))
      with (match rstrip (String c' r') with
            | EmptyString => if is_space c then EmptyString else String c EmptyString
            | String x y => String c (String x y)
            end).
    rewrite IH. reflexivity.
Qed.

(** [strip] leaves a string alone that has no white space at either end. *)
Lemma strip_fixed (s : string) : untrimmed s = false -> strip s = s.
Proof.
  unfold untrimmed. intros U.
  apply orb_false_iff in U as [U La]. apply orb_false_iff in U as [_ Hd].
  unfold strip. rewrite (lstrip_fixed s Hd). apply rstrip_fixed, La.
Qed.

Lemma last_is_space_app (a b : string) :
  truthy b = true -> last_is_space (a ++ b) = last_is_space b.
Proof.
  intros Tb. induction a as [|c r IH]; [reflexivity|].
  cbn [append last_is_space]. rewrite <- IH.
  destruct (r ++ b)%string eqn:E; [|reflexivity].
  destruct r; simpl in E; [subst b|]; discriminate.
Qed.

(** Joining two trimmed texts with a space gives a trimmed text. *)
Lemma untrimmed_glue (buffer s : string) :
  untrimmed buffer = false -> untrimmed s = false ->
  untrimmed (buffer ++ " " ++ s) = false.
Proof.
  unfold untrimmed. intros Ub Us.
  apply orb_false_iff in Ub as [Ub _]. apply orb_false_iff in Ub as [Tb Hb].
  apply orb_false_iff in Us as [Us Ls]. apply orb_false_iff in Us as [Ts _].
  apply negb_false_iff in Tb, Ts.
  rewrite (truthy_app buffer _ Tb).
  rewrite last_is_space_app by (change (" " ++ s)%string with (String " " s); reflexivity).
  change (" " ++ s)%string with (String " " s).
  destruct s as [|c r]; [discriminate|]. cbn [last_is_space] in *. rewrite Ls.
  destruct buffer as [|cb rb]; [discriminate|]. simpl in *. rewrite Hb. reflexivity.
Qed.

End JoinFacts.

Section TextClaims.
Context {D : Type} `{SentenceBoundaryDetector D}.
Implicit Types h : Handler D.

Lemma dispatched_app (l1 l2 : list Action) :
  dispatched (l1 ++ l2) = dispatched l1 ++ dispatched l2.
Proof.
  induction l1 as [|[?|? ? ? ?] r IH]; simpl; auto. rewrite IH. reflexivity.
Qed.

Lemma dispatched_writes (l : list OutEvent) : dispatched (map Write l) = [].
Proof. induction l; simpl; auto. Qed.

(** A flush hands the engine the stripped buffer, or nothing. *)
Lemma dispatched_flush h :
  dispatched (snd (_flush_buffer h)) =
  if PyStr.truthy (PyStr.strip (_sentence_buffer h))
  then [PyStr.strip (_sentence_buffer h)] else [].
Proof.
  destruct (PyStr.truthy (PyStr.strip (_sentence_buffer h))) eqn:T.
  - destruct (flush_dispatch h T) as (h' & writes & E & _).
    rewrite E. cbn [snd dispatched]. rewrite dispatched_writes. reflexivity.
  - rewrite (flush_blank h T). reflexivity.
Qed.

Lemma dispatched_flush_trimmed h :
  _sentence_buffer h = "" \/ untrimmed (_sentence_buffer h) = false ->
  words_joined (dispatched (snd (_flush_buffer h)))
  = words_joined [_sentence_buffer h].
Proof.
  rewrite dispatched_flush. intros [-> | U]; [reflexivity|].
  rewrite (JoinFacts.strip_fixed _ U).
  destruct (PyStr.truthy (_sentence_buffer h)) eqn:T; [reflexivity|].
  unfold words_joined. cbn [filter]. rewrite T. reflexivity.
Qed.

(** The texts dispatched while a list of sentences is processed and the
    buffer finally flushed, joined by spaces, are the buffer and the
    stripped sentences joined by spaces. *)
Lemma sentences_dispatched (sentences : list string) :
  forall h,
    _sentence_buffer h = "" \/ untrimmed (_sentence_buffer h) = false ->
    let '(_, h1, log1) := for_each sentences _process_sentence h in
    let '(_, _, log2) := _flush_buffer h1 in
    words_joined (dispatched (log1 ++ log2))
    = words_joined (_sentence_buffer h :: map PyStr.strip sentences).
Proof.
  induction sentences as [|s r IH]; intros h B.
  - cbn [for_each ret map]. pose proof (dispatched_flush_trimmed h B) as F.
    destruct (_flush_buffer h) as [[o2 h2] log2]. exact F.
  - cbn [for_each map].
    pose proof (process_sentence_run s h) as R. cbv zeta in R.
    destruct (PyStr.truthy (PyStr.strip s)) eqn:Ts.
    + set (buffer := (if PyStr.truthy (_sentence_buffer h)
                      then _sentence_buffer h ++ " " ++ PyStr.strip s
                      else PyStr.strip s)%string) in *.
      assert (untrimmed buffer = false) as Ub.
      { subst buffer. pose proof (PyStrFacts.strip_trimmed s Ts) as Us.
        destruct B as [-> | Ub]; [exact Us|].
        destruct (PyStr.truthy (_sentence_buffer h)); [|exact Us].
        apply JoinFacts.untrimmed_glue; assumption. }
      rewrite <- (JoinFacts.words_joined_glue _ _ _ Ts). fold buffer.
      destruct (20 <=? String.length buffer)%nat.
      * destruct (steady_flush (set_sentence_buffer buffer h))
          as (h1 & log1 & E1 & _).
        rewrite E1 in R. rewrite (bind_returned _ _ _ _ _ _ R).
        pose proof (dispatched_flush (set_sentence_buffer buffer h)) as Df.
        pose proof (flush_clears_buffer (set_sentence_buffer buffer h)) as Cf.
        rewrite E1 in Df, Cf. cbn [snd fst _sentence_buffer set_sentence_buffer] in Df, Cf.
        rewrite (JoinFacts.strip_fixed _ Ub) in Df.
        assert (PyStr.truthy buffer = true) as Tb.
        { unfold untrimmed in Ub. apply orb_false_iff in Ub as [Ub _].
          apply orb_false_iff in Ub as [Ub _]. apply negb_false_iff, Ub. }
        rewrite Tb in Df.
        specialize (IH h1 (or_introl Cf)). rewrite Cf in IH.
        destruct (for_each r _process_sentence h1) as [[o2 h2] log2].
        destruct (_flush_buffer h2) as [[o3 h3] log3].
        rewrite <- app_assoc, dispatched_app, Df. cbn [app].
        apply JoinFacts.words_joined_congr. rewrite IH.
        rewrite JoinFacts.words_joined_cons. reflexivity.
      * rewrite (bind_returned _ _ _ _ _ _ R).
        specialize (IH (set_sentence_buffer buffer h) (or_intror Ub)).
        cbn [_sentence_buffer set_sentence_buffer] in IH.
        destruct (for_each r _process_sentence (set_sentence_buffer buffer h))
          as [[o2 h2] log2].
        destruct (_flush_buffer h2) as [[o3 h3] log3]. exact IH.
    + rewrite (bind_returned _ _ _ _ _ _ R).
      specialize (IH h B).
      destruct (for_each r _process_sentence h) as [[o2 h2] log2].
      destruct (_flush_buffer h2) as [[o3 h3] log3]. cbn [app].
      rewrite IH, (JoinFacts.words_joined_cons _ (PyStr.strip s :: _)).
      rewrite (JoinFacts.words_joined_cons (PyStr.strip s)), Ts.
      rewrite <- JoinFacts.words_joined_cons. reflexivity.
Qed.

(** X14. Starting from an empty buffer, the texts handed to the engine while
    a list of sentences is processed and the buffer finally flushed are,
    joined by single spaces, the stripped sentences that are not blank joined
    by single spaces: no sentence is lost, repeated or reordered on its way
    to the engine. *)
Theorem dispatched_text_conserved (sentences : list string) h :
  _sentence_buffer h = "" ->
  let '(_, h1, log1) := for_each sentences _process_sentence h in
  let '(_, _, log2) := _flush_buffer h1 in
  words_joined (dispatched (log1 ++ log2))
  = words_joined (map PyStr.strip sentences).
Proof.
  intros B. pose proof (sentences_dispatched sentences h (or_introl B)) as S.
  destruct (for_each sentences _process_sentence h) as [[o1 h1] log1].
  destruct (_flush_buffer h1) as [[o2 h2] log2].
  rewrite S, B, JoinFacts.words_joined_cons. reflexivity.
Qed.

End TextClaims.

(** ** Languages and the capability descriptor *)

(** X15. The language handed to the model is always a supported one, and
    normalising it again changes nothing; [synthesize] sees the language
    code only through it, so a request in ["EN-us"] and one in ["en"] are
    the same request to the engine. *)
Theorem short_lang_idempotent (eng : SupertonicEngine)
    (text voice lang_code : string) :
  In (short_lang lang_code) supported_langs /\
  short_lang (short_lang lang_code) = short_lang lang_code /\
  synthesize eng text voice (short_lang lang_code)
  = synthesize eng text voice lang_code.
Proof.
  pose proof (short_lang_supported lang_code) as I.
  assert (short_lang (short_lang lang_code) = short_lang lang_code) as E.
  { simpl in I. destruct I as [<- | [<- | [<- | [<- | [<- | []]]]]]; reflexivity. }
  split; [exact I|]. split; [exact E|].
  unfold synthesize. rewrite E. reflexivity.
Qed.

Section DescriptorClaims.
Context {D : Type} `{SentenceBoundaryDetector D}.
Implicit Types h : Handler D.

(** X16. The descriptor built at start-up and the handler agree: the voices
    advertised are the catalog, in order; streaming is advertised exactly
    when an idle handler answers [SynthesizeStart] by streaming; every
    advertised language reaches the model unchanged; and an advertised
    voice with a non-empty name, once recorded from a request, is the voice
    of the next flush. *)
Theorem descriptor_is_honoured h :
  let info := wyoming_info (cli_args h) (engine h) in
  map tts_voice_name (voices info) = available_voices (engine h) /\
  (forall voice,
      _is_streaming h = false ->
      _is_streaming (snd (fst (handle_event (SynthesizeStart voice) h)))
      = supports_synthesize_streaming info) /\
  (forall v lang,
      In v (voices info) -> In lang (tts_voice_languages v) ->
      short_lang lang = lang) /\
  (forall v lang,
      In v (voices info) -> tts_voice_name v <> "" ->
      voice_name (recorded (Some {| v_name := Some (tts_voice_name v);
                                    v_language := lang |}) h)
      = tts_voice_name v).
Proof.
  cbv zeta. split; [|split; [|split]].
  - unfold wyoming_info. cbn [voices]. rewrite map_map. apply map_id.
  - intros voice St. unfold wyoming_info. cbn [supports_synthesize_streaming].
    destruct (no_streaming (cli_args h)) eqn:Ns.
    + rewrite (handle_start_disabled voice h Ns). exact St.
    + rewrite (handle_start voice h Ns).
      destruct voice as [[[[|]|] [[|]|]]|]; reflexivity.
  - intros v lang Iv Il. unfold wyoming_info in Iv. cbn [voices] in Iv.
    apply in_map_iff in Iv as (id & <- & _). cbn [tts_voice_languages] in Il.
    simpl in Il. destruct Il as [<- | [<- | [<- | [<- | [<- | []]]]]]; reflexivity.
  - intros v lang Iv Nv. unfold wyoming_info in Iv. cbn [voices] in Iv.
    apply in_map_iff in Iv as (id & <- & Iid). cbn [tts_voice_name] in *.
    apply voice_name_requested.
    + unfold recorded, voice_after. cbn.
      apply PyStrFacts.truthy_true in Nv. rewrite Nv. reflexivity.
    + exact Nv.
    + unfold recorded. cbn. exact Iid.
Qed.

End DescriptorClaims.

(** ** The further properties on concrete runs *)

Lemma engine_called_with_catalog_voice_witness :
  available_voices (engine Demo.handler) <> [] /\
  forallb (calls_catalog_voice (available_voices (engine Demo.handler)))
    (snd (run_raw Samples.mixed_session Demo.handler)) = true.
Proof.
  assert (available_voices (engine Demo.handler) <> []) as N by discriminate.
  split; [exact N|].
  exact (engine_called_with_catalog_voice Samples.mixed_session Demo.handler N).
Defined.

Lemma engine_without_styles_is_mute_witness :
  styles_dir (engine Samples.unstyled_handler) = None /\
  count is_AudioStart
    (snd (run_raw Samples.mixed_session Samples.unstyled_handler)) = 0 /\
  count is_AudioChunk
    (snd (run_raw Samples.mixed_session Samples.unstyled_handler)) = 0.
Proof.
  split; [reflexivity|].
  exact (engine_without_styles_is_mute Samples.mixed_session
           Samples.unstyled_handler (or_intror eq_refl)).
Defined.

Lemma no_streaming_never_streams_witness :
  no_streaming (cli_args Samples.one_shot_handler) = true /\
  _is_streaming Samples.one_shot_handler = false /\
  _is_streaming (fst (run_raw Samples.mixed_session Samples.one_shot_handler))
  = false /\
  count is_SynthesizeStopped
    (snd (run_raw Samples.mixed_session Samples.one_shot_handler)) = 0.
Proof.
  split; [reflexivity|]. split; [reflexivity|].
  exact (no_streaming_never_streams Samples.mixed_session
           Samples.one_shot_handler eq_refl eq_refl).
Defined.

Lemma buffer_below_threshold_witness :
  String.length (_sentence_buffer Demo.handler) < 20 /\
  String.length
    (_sentence_buffer (fst (run_raw Demo.open_stream Demo.handler))) < 20.
Proof.
  assert (String.length (_sentence_buffer Demo.handler) < 20) as B
    by (simpl; lia).
  split; [exact B|].
  exact (buffer_below_threshold Demo.open_stream Demo.handler B).
Defined.

Lemma completed_utterance_empties_buffer_witness :
  completed_utterance Demo.handler Demo.short_stream /\
  _sentence_buffer (fst (run_raw Demo.short_stream Demo.handler)) = "".
Proof.
  assert (completed_utterance Demo.handler Demo.short_stream) as U
    by (apply (span_completed _ None
                 [SynthesizeChunk (Some "Hi "); SynthesizeChunk (Some "there.")]);
        reflexivity).
  split; [exact U|].
  exact (completed_utterance_empties_buffer Demo.short_stream Demo.handler U).
Defined.

Lemma request_forgets_leftovers_witness :
  cli_args Samples.used_handler = cli_args Demo.handler /\
  engine Samples.used_handler = engine Demo.handler /\
  _current_voice Samples.used_handler = _current_voice Demo.handler /\
  _current_language Samples.used_handler = _current_language Demo.handler /\
  handle_event (Synthesize (Some "Hello world.") None) Samples.used_handler
  = handle_event (Synthesize (Some "Hello world.") None) Demo.handler.
Proof.
  repeat (split; [reflexivity|]).
  exact (proj1 (request_forgets_leftovers Samples.used_handler Demo.handler
                  eq_refl eq_refl eq_refl eq_refl)
           "Hello world." None eq_refl eq_refl).
Defined.

Lemma audio_stop_never_unmatched_witness :
  _is_streaming Demo.handler && _audio_started Demo.handler = false /\
  count is_AudioStop (snd (run_raw Samples.mixed_session Demo.handler))
  <= count is_AudioStart (snd (run_raw Samples.mixed_session Demo.handler)).
Proof.
  split; [reflexivity|].
  exact (audio_stop_never_unmatched Samples.mixed_session Demo.handler eq_refl).
Defined.

Lemma dispatched_text_conserved_witness :
  _sentence_buffer Demo.handler = "" /\
  words_joined
    (dispatched
       (snd (for_each ["Hello world."; "  "; " How are you?"; "Fine."]
               _process_sentence Demo.handler)
        ++ snd (_flush_buffer
                  (snd (fst (for_each
                               ["Hello world."; "  "; " How are you?"; "Fine."]
                               _process_sentence Demo.handler))))))
  = "Hello world. How are you? Fine.".
Proof.
  split; [reflexivity|].
  pose proof (dispatched_text_conserved
                ["Hello world."; "  "; " How are you?"; "Fine."]
                Demo.handler eq_refl) as C.
  destruct (for_each ["Hello world."; "  "; " How are you?"; "Fine."]
              _process_sentence Demo.handler) as [[o1 h1] log1].
  cbn [snd fst].
  destruct (_flush_buffer h1) as [[o2 h2] log2].
  cbn [snd]. rewrite C. reflexivity.
Defined.

Lemma descriptor_is_honoured_witness :
  _is_streaming Samples.one_shot_handler = false /\
  _is_streaming
    (snd (fst (handle_event (SynthesizeStart None) Samples.one_shot_handler)))
  = supports_synthesize_streaming
      (wyoming_info (cli_args Samples.one_shot_handler)
         (engine Samples.one_shot_handler)).
Proof.
  split; [reflexivity|].
  exact (proj1 (proj2 (descriptor_is_honoured Samples.one_shot_handler))
           None eq_refl).
Defined.
